(** * pyclim-NorESM: regridding geometry and naming utilities

    A shallow embedding of [regrid_functions.py] (make_bounds, mk_outgrid,
    make_regridder) and of the parts of [functions/general_util_funcs.py]
    that normalise names and compute the ocean volume average
    (consistent_naming, get_areacello, volumeavg_ocn).

    Python exceptions are values of [exception]; a call that may raise
    returns a [result].  Grid values are IEEE binary64 numbers, modelled by
    Rocq's primitive floats.  An xarray object is modelled by the part of it
    the code looks at: the values and coordinate labels of an array for the
    regridding functions, the names, dimensions and attributes of an object
    for the naming functions. *)

From Stdlib Require Import String List ZArith Bool Lia Floats.
Import ListNotations.

Set Implicit Arguments.
Open Scope string_scope.
Open Scope list_scope.

(** ** Exceptions and results *)

Inductive exception : Type :=
| IndexError
| NameError (name : string)
| UnboundLocalError (name : string)
| ValueError (msg : string)
| AttributeError (name : string)
| FileNotFoundError (path : string).

Inductive result (A : Type) : Type :=
| Ok (a : A)
| Raise (e : exception).

Arguments Ok {A} a.
Arguments Raise {A} e.

Definition bind {A B : Type} (r : result A) (k : A -> result B) : result B :=
  match r with
  | Ok a => k a
  | Raise e => Raise e
  end.

Declare Scope result_scope.
Delimit Scope result_scope with result.
Notation "x <- r ;; k" := (bind r (fun x => k))
  (at level 61, r at next level, right associativity) : result_scope.
Open Scope result_scope.

Definition succeeds {A : Type} (r : result A) : Prop := exists a, r = Ok a.

Definition fails {A : Type} (r : result A) : Prop := exists e, r = Raise e.

Fixpoint mapM {A B : Type} (f : A -> result B) (l : list A) : result (list B) :=
  match l with
  | [] => Ok []
  | x :: t => y <- f x ;; ys <- mapM f t ;; Ok (y :: ys)
  end.

(** ** Python sequences *)

(** [l[k]]: a negative index counts from the end, an index outside
    [-len, len) raises IndexError. *)
Definition py_index {A : Type} (l : list A) (k : Z) : result A :=
  let n := Z.of_nat (length l) in
  let k' := if (k <? 0)%Z then (k + n)%Z else k in
  if ((0 <=? k') && (k' <? n))%Z then
    match nth_error l (Z.to_nat k') with
    | Some x => Ok x
    | None => Raise IndexError
    end
  else Raise IndexError.

(** [l[0:stop]]: a negative stop counts from the end, and the bounds are
    clipped to the sequence. *)
Definition py_slice_to {A : Type} (stop : Z) (l : list A) : list A :=
  let n := Z.of_nat (length l) in
  let s := if (stop <? 0)%Z then Z.max 0 (stop + n) else Z.min stop n in
  firstn (Z.to_nat s) l.

Definition mem (s : string) (l : list string) : bool := existsb (String.eqb s) l.

(** ** Arrays *)

Abbreviation array1 := (list float).
Abbreviation array2 := (list (list float)).          (* indexed [j][i] *)
Abbreviation array3 := (list (list (list float))).   (* indexed [j][i][vertices] *)

Definition shape2 (a : array2) (R C : nat) : Prop :=
  length a = R /\ Forall (fun row => length row = C) a.

Definition shape3 (v : array3) (R C V : nat) : Prop :=
  length v = R /\
  Forall (fun row => length row = C /\ Forall (fun q => length q = V) row) v.

(** An xarray.DataArray as the regridding functions see it: its values and
    the names of the coordinates attached to it. *)
Record DataArray (V : Type) : Type := mkDataArray {
  values : V;
  coords : list string
}.

(** [da.drop(name)]: removes a coordinate, ValueError when it is absent. *)
Definition drop {V : Type} (name : string) (da : DataArray V) : result (DataArray V) :=
  if mem name (coords da) then
    Ok {| values := values da;
          coords := filter (fun c => negb (String.eqb name c)) (coords da) |}
  else Raise (ValueError "One or more of the specified variables cannot be found").

(** [da.isel(j=slice(0, stop))] on an array whose first axis is j. *)
Definition isel_j_slice {A : Type} (stop : Z) (da : DataArray (list A)) : DataArray (list A) :=
  {| values := py_slice_to stop (values da); coords := coords da |}.

(** [a.isel(vertices=k)] : (j, i, vertices) -> (j, i). *)
Definition isel_vertices (k : Z) (v : array3) : result array2 :=
  mapM (mapM (fun q => py_index q k)) v.

(** [a.isel(vertices=k, i=c)] : (j, i, vertices) -> (j). *)
Definition isel_vertices_i (k c : Z) (v : array3) : result array1 :=
  mapM (fun row => q <- py_index row c ;; py_index q k) v.

(** [a.isel(vertices=k, j=r)] : (j, i, vertices) -> (i). *)
Definition isel_vertices_j (k r : Z) (v : array3) : result array1 :=
  row <- py_index v r ;; mapM (fun q => py_index q k) row.

(** [a.isel(vertices=k, j=r, i=c)] : (j, i, vertices) -> scalar. *)
Definition isel_vertices_j_i (k r c : Z) (v : array3) : result float :=
  row <- py_index v r ;; q <- py_index row c ;; py_index q k.

Definition size_mismatch : exception :=
  ValueError "arguments without labels cannot be aligned: different dimension sizes".

(** [xr.concat([a, col], dim='i')] with [a] on (j, i) and [col] on (j):
    [col] becomes the last column.  The j axes must have the same size. *)
Fixpoint concat_i (a : array2) (col : array1) : result array2 :=
  match a, col with
  | [], [] => Ok []
  | row :: a', x :: col' => rest <- concat_i a' col' ;; Ok ((row ++ [x]) :: rest)
  | _, _ => Raise size_mismatch
  end.

(** [xr.concat([a, row], dim='j')] with [a] on (j, i) and [row] on (i):
    [row] becomes the last row.  The i axes must have the same size. *)
Definition concat_j (a : array2) (row : array1) : result array2 :=
  if forallb (fun r => Nat.eqb (length r) (length row)) a then Ok (a ++ [row])
  else Raise size_mismatch.

(** [a.where(cond, other)]: keeps the entries where [cond] holds and puts
    [other] elsewhere. *)
Definition where_ (cond : float -> bool) (other : float) (a : array2) : array2 :=
  map (map (fun x => if cond x then x else other)) a.

(** ** regrid_functions.py *)

Module ModelGrid.
(** The dataset read by make_bounds: centres on (j, i), vertices on
    (j, i, vertices). *)
Record t : Type := mk {
  lat : DataArray array2;
  lon : DataArray array2;
  vertices_latitude : DataArray array3;
  vertices_longitude : DataArray array3
}.
End ModelGrid.

(** The dataset returned by make_bounds: [xr.merge([lon, lat, lon_b, lat_b])],
    centres on (y, x) and corners on (y_b, x_b). *)
Record Geometry : Type := mkGeometry {
  g_lon : DataArray array2;
  g_lat : DataArray array2;
  g_lon_b : DataArray array2;
  g_lat_b : DataArray array2
}.

Definition trimmed_models : list string := ["NorESM2-LM"; "NorESM2-MM"]%string.

(** Lines 34-37: the row count [ny] used for the geometry. *)
Definition effective_ny (modelname : string) (seaice : bool) (ny : Z) : Z :=
  if mem modelname trimmed_models && seaice then (ny - 1)%Z else ny.

(** Lines 44-45 (longitude) and 46-47 (latitude): the corner mesh of a
    vertex array, before any row is cut off. *)
Definition corner_mesh (v : array3) : result array2 :=
  v0 <- isel_vertices 0 v ;;
  v1_last <- isel_vertices_i 1 (-1) v ;;
  b <- concat_i v0 v1_last ;;
  v3_top <- isel_vertices_j 3 (-1) v ;;
  v2_top_last <- isel_vertices_j_i 2 (-1) (-1) v ;;
  concat_j b (v3_top ++ [v2_top_last]).

(** The concatenated pieces carry the coordinates of the vertex array. *)
Definition concat_vertices (da : DataArray array3) : result (DataArray array2) :=
  m <- corner_mesh (values da) ;;
  Ok {| values := m; coords := coords da |}.

(** Lines 55-56: the polar clamp. *)
Definition polar_clamp (a : array2) : array2 :=
  where_ (fun x => PrimFloat.ltb (-90) x) (-90)
    (where_ (fun x => PrimFloat.ltb x 90) 90 a).

(** The same two lines on a single value. *)
Definition clamp_value (x : float) : float :=
  let y := if PrimFloat.ltb x 90 then x else 90%float in
  if PrimFloat.ltb (-90) y then y else (-90)%float.

(** [da.drop('lon').drop('lat')]. *)
Definition drop_lon_lat {V : Type} (da : DataArray V) : result (DataArray V) :=
  d <- drop "lon" da ;; drop "lat" d.

(** Lines 34-57.  Renaming dimensions and arrays changes neither values nor
    coordinates and is left out.  [xr.merge] of line 57 is the record of the
    four arrays: the arrays of a Dataset share the dimensions j and i, so the
    sizes that merge aligns agree. *)
Definition make_bounds (modelname : string) (ds : ModelGrid.t) (seaice : bool)
  : result Geometry :=
  let ny := Z.of_nat (length (values (ModelGrid.lat ds))) in
  let ny := effective_ny modelname seaice ny in
  lat_model <-
    (if mem "lat" (coords (ModelGrid.lon ds))
     then drop_lon_lat (isel_j_slice ny (ModelGrid.lat ds))
     else Ok (isel_j_slice ny (ModelGrid.lat ds))) ;;
  lon_model <-
    (if mem "lat" (coords (ModelGrid.lon ds))
     then drop_lon_lat (isel_j_slice ny (ModelGrid.lon ds))
     else Ok (isel_j_slice ny (ModelGrid.lon ds))) ;;
  lon_b_model <- concat_vertices (ModelGrid.vertices_longitude ds) ;;
  lat_b_model <- concat_vertices (ModelGrid.vertices_latitude ds) ;;
  let has_lat := mem "lat" (coords lon_b_model) in
  lon_b_model <-
    (if has_lat
     then drop_lon_lat (isel_j_slice (ny + 1) lon_b_model)
     else Ok (isel_j_slice (ny + 1) lon_b_model)) ;;
  lat_b_model <-
    (if has_lat
     then drop_lon_lat (isel_j_slice (ny + 1) lat_b_model)
     else Ok (isel_j_slice (ny + 1) lat_b_model)) ;;
  let lat_b_model :=
    {| values := polar_clamp (values lat_b_model); coords := coords lat_b_model |} in
  Ok {| g_lon := lon_model; g_lat := lat_model;
        g_lon_b := lon_b_model; g_lat_b := lat_b_model |}.

(** The vertex [k] of a cell, and the bound [k] of a pair. *)
Definition vertex (k : nat) (quad : list float) : float := nth k quad 0%float.

(** What the corner mesh is said to be: the vertex 0 of every cell, with one
    more column made of the vertex 1 of the last cell of each row, and one
    more row made of the vertex 3 of every cell of the last row followed by
    the vertex 2 of its last cell. *)
Definition corner_mesh_spec (v : array3) : array2 :=
  map (fun row => map (vertex 0) row ++ [vertex 1 (last row [])]) v
  ++ [map (vertex 3) (last v []) ++ [vertex 2 (last (last v []) [])]].

Definition in_polar_range (x : float) : Prop :=
  PrimFloat.leb (-90) x = true /\ PrimFloat.leb x 90 = true.

Module LatLonGrid.
(** The dataset read by mk_outgrid: centres on (lat) and (lon), bounds on
    (lat, bnds) and (lon, bnds). *)
Record t : Type := mk {
  lat : array1;
  lon : array1;
  lat_bnds : array2;
  lon_bnds : array2
}.
End LatLonGrid.

(** The dataset returned by mk_outgrid: centres on (y) and (x), edges on
    (y_b) and (x_b). *)
Record OutGrid : Type := mkOutGrid {
  o_lon : array1;
  o_lat : array1;
  o_lon_b : array1;
  o_lat_b : array1
}.

(** [b.isel(bnds=k)] : (cell, bnds) -> (cell). *)
Definition isel_bnds (k : Z) (b : array2) : result array1 :=
  mapM (fun pair => py_index pair k) b.

(** [b.isel(cell=c).isel(bnds=k)] : (cell, bnds) -> scalar. *)
Definition isel_cell_bnds (c k : Z) (b : array2) : result float :=
  pair <- py_index b c ;; py_index pair k.

(** Lines 74 and 75: [xr.concat([b.isel(bnds=0), b.isel(cell=-1).isel(bnds=1)])]. *)
Definition concat_bnds (b : array2) : result array1 :=
  lower <- isel_bnds 0 b ;;
  upper_last <- isel_cell_bnds (-1) 1 b ;;
  Ok (lower ++ [upper_last]).

(** Lines 72-77.  The arrays are held by position: the names of the
    dimensions and the coordinate labels are not part of this model, so the
    renamings, the selections by name and [xr.merge] of line 76 are those of
    a dataset in the format the function reads, with lat_bnds on (lat, bnds)
    and lon_bnds on (lon, bnds).  What the model keeps is the values and the
    indexing, the one step of these lines that depends on the sizes. *)
Definition mk_outgrid (ds : LatLonGrid.t) : result OutGrid :=
  let lon := LatLonGrid.lon ds in
  let lat := LatLonGrid.lat ds in
  lat_b <- concat_bnds (LatLonGrid.lat_bnds ds) ;;
  lon_b <- concat_bnds (LatLonGrid.lon_bnds ds) ;;
  Ok {| o_lon := lon; o_lat := lat; o_lon_b := lon_b; o_lat_b := lat_b |}.

(** Each pair has its lower bound strictly below its upper bound. *)
Definition strictly_ordered (b : array2) : bool :=
  forallb (fun pair => match pair with
                       | lo :: hi :: _ => PrimFloat.ltb lo hi
                       | _ => false
                       end) b.

(** *** Name lookup and make_regridder *)

Inductive pyval : Type :=
| PyStr (s : string)
| PyObj (what : string).   (* a module or a function *)

Definition namespace := list (string * pyval).

Fixpoint lookup (name : string) (ns : namespace) : option pyval :=
  match ns with
  | [] => None
  | (k, v) :: rest => if String.eqb name k then Some v else lookup name rest
  end.

(** A name that the function never assigns is looked up in the module's
    globals, then in the builtins; NameError when neither has it. *)
Definition load_global (globals builtins : namespace) (name : string) : result pyval :=
  match lookup name globals with
  | Some v => Ok v
  | None =>
      match lookup name builtins with
      | Some v => Ok v
      | None => Raise (NameError name)
      end
  end.

(** The names regrid_functions.py binds at module level: its imports and
    its three functions. *)
Definition module_globals : namespace :=
  [ ("xr", PyObj "xarray"); ("xe", PyObj "xesmf"); ("np", PyObj "numpy");
    ("warnings", PyObj "warnings");
    ("make_bounds", PyObj "make_bounds"); ("mk_outgrid", PyObj "mk_outgrid");
    ("make_regridder", PyObj "make_regridder") ]%string.

(** [modelname in ['NorESM2-LM', 'NorESM2-MM']] compares by value: an object
    that is not a string equals no entry, like the empty string. *)
Definition as_modelname (v : pyval) : string :=
  match v with
  | PyStr s => s
  | PyObj _ => EmptyString
  end.

(** One call of [xe.Regridder(ds_in, ds_out, method, filename=, reuse_weights=)]. *)
Record RegridderCall : Type := mkCall {
  rc_ds_in : Geometry;
  rc_ds_out : OutGrid;
  rc_method : string;
  rc_filename : string;
  rc_reuse_weights : bool
}.

(** The regridders constructed so far, oldest first. *)
Definition world := list RegridderCall.

Section MakeRegridder.
(** xesmf is not part of the repository: what a constructor call returns
    is a parameter. *)
Variable Regridder : Type.
Variable xe_Regridder : RegridderCall -> result Regridder.

Definition make_regridder (globals builtins : namespace)
    (ds : ModelGrid.t) (outgrid : OutGrid) (grid_weight_path : string)
    (regrid_mode : string) (reuse_weights : bool) (w : world)
  : result Regridder * world :=
  match
    (_ <- load_global globals builtins "make_bounds" ;;
     modelname <- load_global globals builtins "modelname" ;;
     make_bounds (as_modelname modelname) ds false)
  with
  | Raise e => (Raise e, w)
  | Ok ds_in =>
      match load_global globals builtins "xe" with
      | Raise e => (Raise e, w)
      | Ok _ =>
          let call :=
            {| rc_ds_in := ds_in; rc_ds_out := outgrid; rc_method := regrid_mode;
               rc_filename :=
                 (grid_weight_path ++ "model_to_grid_" ++ regrid_mode ++ ".nc")%string;
               rc_reuse_weights := reuse_weights |} in
          (xe_Regridder call, w ++ [call])
      end
  end.
End MakeRegridder.

(** *** Well-formed inputs of make_bounds *)

(** The coordinate labels make_bounds drops are there: where it finds lat on
    an array, lat and lon are on the arrays it strips. *)
Definition labels_ok (ds : ModelGrid.t) : bool :=
  (negb (mem "lat" (coords (ModelGrid.lon ds)))
   || (mem "lon" (coords (ModelGrid.lon ds))
       && mem "lat" (coords (ModelGrid.lat ds))
       && mem "lon" (coords (ModelGrid.lat ds))))
  && (negb (mem "lat" (coords (ModelGrid.vertices_longitude ds)))
      || (mem "lon" (coords (ModelGrid.vertices_longitude ds))
          && mem "lat" (coords (ModelGrid.vertices_latitude ds))
          && mem "lon" (coords (ModelGrid.vertices_latitude ds)))).

(** Vertex arrays of R x C cells with four vertices each, R and C at least 1. *)
Record vertices_ok (ds : ModelGrid.t) (R C : nat) : Prop := mkVerticesOk {
  vo_rows : (1 <= R)%nat;
  vo_cols : (1 <= C)%nat;
  vo_lat : shape3 (values (ModelGrid.vertices_latitude ds)) R C 4;
  vo_lon : shape3 (values (ModelGrid.vertices_longitude ds)) R C 4;
  vo_labels : labels_ok ds = true
}.

(** Centre arrays of R x C cells. *)
Record centres_ok (ds : ModelGrid.t) (R C : nat) : Prop := mkCentresOk {
  co_lat : shape2 (values (ModelGrid.lat ds)) R C;
  co_lon : shape2 (values (ModelGrid.lon ds)) R C
}.

(** *** Sample grids *)

Definition quad (a b c d : float) : list float := [a; b; c; d].

Definition plain (V : Type) (v : V) : DataArray V := {| values := v; coords := [] |}.

(** A 2 x 2 grid whose last corner overshoots the pole. *)
Definition grid_2x2 : ModelGrid.t :=
  ModelGrid.mk
    (plain [[1; 2]; [3; 4]]%float)
    (plain [[5; 6]; [7; 8]]%float)
    (plain [[quad 0 1 2 3; quad 10 11 12 13];
            [quad 20 21 22 23; quad 30 31 95 (-91)]]%float)
    (plain [[quad 0 1 2 3; quad 10 11 12 13];
            [quad 20 21 22 23; quad 30 31 32 33]]%float).

(** The same centres and vertices carrying the 2D coordinates lat and lon. *)
Definition labelled (V : Type) (v : V) : DataArray V :=
  {| values := v; coords := ["lat"; "lon"]%string |}.

Definition grid_2x2_labelled : ModelGrid.t :=
  ModelGrid.mk
    (labelled (values (ModelGrid.lat grid_2x2)))
    (labelled (values (ModelGrid.lon grid_2x2)))
    (labelled (values (ModelGrid.vertices_latitude grid_2x2)))
    (labelled (values (ModelGrid.vertices_longitude grid_2x2))).

(** A grid of 385 rows and one column, as the ocean grid of NorESM2 has
    385 rows. *)
Definition grid_385 : ModelGrid.t :=
  ModelGrid.mk
    (plain (repeat [0%float] 385))
    (plain (repeat [0%float] 385))
    (plain (repeat [quad 0 0 1 1] 385))
    (plain (repeat [quad 0 1 1 0] 385)).

Definition target_3x2 : LatLonGrid.t :=
  LatLonGrid.mk
    [-60; 0; 60]%float [90; 270]%float
    [[-90; -30]; [-30; 30]; [30; 90]]%float
    [[0; 180]; [180; 360]]%float.

(** Bounds whose pairs are not ordered: the first latitude pair descends
    and the longitude pairs overlap. *)
Definition target_unordered : LatLonGrid.t :=
  LatLonGrid.mk
    [5; 5]%float [90; 270]%float
    [[10; 0]; [0; 10]]%float
    [[180; 0]; [90; 360]]%float.

(** The number of rows of the centres and of the corners of a returned
    geometry. *)
Definition centre_rows (r : result Geometry) : option nat :=
  match r with
  | Ok g => Some (length (values (g_lat g)))
  | Raise _ => None
  end.

Definition corner_rows (r : result Geometry) : option nat :=
  match r with
  | Ok g => Some (length (values (g_lat_b g)))
  | Raise _ => None
  end.

(** The cell (r, c) of a vertex array and the entry (r, c) of a mesh. *)
Definition cell (v : array3) (r c : nat) : list float := nth c (nth r v []) [].

Definition entry (m : array2) (r c : nat) : float := nth c (nth r m []) 0%float.

(** *** Sample namespaces *)

(** A few of Python's builtins. *)
Definition some_builtins : namespace :=
  [ ("len", PyObj "len"); ("print", PyObj "print"); ("slice", PyObj "slice");
    ("isinstance", PyObj "isinstance") ].

(** The globals of a module in which a caller has bound [modelname]. *)
Definition patched_globals : namespace :=
  ("modelname", PyStr "NorESM2-LM") :: module_globals.

(** An xesmf whose constructor returns the name of the weight file. *)
Definition file_regridder (call : RegridderCall) : result string :=
  Ok (rc_filename call).

(** ** functions/general_util_funcs.py *)

Module X.
(** An xarray Dataset as the naming functions see it: its variables, each
with its dimensions and whether it is a coordinate, and its attributes.
A DataArray is held as the temporary dataset through which xarray itself
renames it: its coordinates, and its own variable under the reserved name
"<this-array>", which no renaming mentions, so that the name of the array
is never changed and never in conflict. *)
Record var : Type := mkVar {
  name : string;
  dims : list string;
  is_coord : bool
}.

Record t : Type := mk {
  variables : list var;
  attrs : list (string * string)
}.
End X.

(** [ds.coords], [ds.dims] and the names of all variables of [ds]. *)
Definition coord_names (ds : X.t) : list string :=
  map X.name (filter X.is_coord (X.variables ds)).

Definition dim_names (ds : X.t) : list string :=
  flat_map X.dims (X.variables ds).

Definition var_names (ds : X.t) : list string :=
  map X.name (X.variables ds).

Definition renamed (old new n : string) : string :=
  if String.eqb n old then new else n.

Definition rename_var (old new : string) (v : X.var) : X.var :=
  {| X.name := renamed old new (X.name v);
     X.dims := map (renamed old new) (X.dims v);
     X.is_coord := X.is_coord v |}.

(** [ds.rename({old: new})]: renames the variable and the dimension called
    [old].  ValueError when [old] is neither, and when the variable [old]
    would take the name of another variable (the messages are shortened).
    A dimension renamed to the name of another dimension is merged with
    it. *)
Definition rename (old new : string) (ds : X.t) : result X.t :=
  if negb (mem old (var_names ds) || mem old (dim_names ds)) then
    Raise (ValueError "cannot rename: not a variable or dimension in this dataset")
  else if mem old (var_names ds) && mem new (var_names ds) then
    Raise (ValueError "the new name conflicts")
  else
    Ok {| X.variables := map (rename_var old new) (X.variables ds);
          X.attrs := X.attrs ds |}.

Definition consistent_naming (ds : X.t) : result X.t :=
  ds <- (if mem "latitude" (coord_names ds) && negb (mem "lat" (coord_names ds))
         then rename "latitude" "lat" ds else Ok ds) ;;
  ds <- (if mem "longitude" (coord_names ds) && negb (mem "lon" (coord_names ds))
         then rename "longitude" "lon" ds else Ok ds) ;;
  ds <- (if mem "region" (dim_names ds) then rename "region" "basin" ds else Ok ds) ;;
  ds <- (if mem "x" (dim_names ds) then rename "x" "i" ds else Ok ds) ;;
  ds <- (if mem "y" (dim_names ds) then rename "y" "j" ds else Ok ds) ;;
  ds <- (if mem "depth" (dim_names ds) then rename "depth" "lev" ds else Ok ds) ;;
  ds <- (if mem "bounds" (dim_names ds) then rename "bounds" "bnds" ds else Ok ds) ;;
  Ok ds.

(** None of the names that consistent_naming replaces is in use. *)
Definition canonical (ds : X.t) : bool :=
  negb (mem "latitude" (coord_names ds)) && negb (mem "longitude" (coord_names ds))
  && negb (mem "region" (dim_names ds)) && negb (mem "x" (dim_names ds))
  && negb (mem "y" (dim_names ds)) && negb (mem "depth" (dim_names ds))
  && negb (mem "bounds" (dim_names ds)).

(** No test of consistent_naming fires. *)
Definition settled (ds : X.t) : bool :=
  negb (mem "latitude" (coord_names ds) && negb (mem "lat" (coord_names ds)))
  && negb (mem "longitude" (coord_names ds) && negb (mem "lon" (coord_names ds)))
  && negb (mem "region" (dim_names ds)) && negb (mem "x" (dim_names ds))
  && negb (mem "y" (dim_names ds)) && negb (mem "depth" (dim_names ds))
  && negb (mem "bounds" (dim_names ds)).

Fixpoint get_attr (key : string) (a : list (string * string)) : option string :=
  match a with
  | [] => None
  | (k, v) :: rest => if String.eqb key k then Some v else get_attr key rest
  end.

(** [da.attrs[key] = v]. *)
Definition set_attr (key v : string) (da : X.t) : X.t :=
  {| X.variables := X.variables da;
     X.attrs := (key, v) :: filter (fun kv => negb (String.eqb key (fst kv))) (X.attrs da) |}.

(** Reading a local variable: UnboundLocalError before its first
    assignment. *)
Definition load_fast {A : Type} (name : string) (local : option A) : result A :=
  match local with
  | Some a => Ok a
  | None => Raise (UnboundLocalError name)
  end.

(** What xarray computes on the values is not part of the repository: the
    arithmetic, the reductions and the files are an interface. *)
Class Xarray : Type := {
  open_dataset : string -> result X.t;
  getvar : X.t -> string -> result X.t;             (* ds.name *)
  times : X.t -> X.t -> X.t;                        (* a * b *)
  divide : X.t -> X.t -> X.t;                       (* a / b *)
  where_positive : X.t -> X.t;                      (* a.where(a > 0) *)
  assign_coords : string -> X.t -> X.t -> X.t;      (* a.assign_coords(name=c) *)
  sum_over : list string -> X.t -> result X.t       (* a.sum(dim=dims) *)
}.

Section OceanAverages.
Context {xr : Xarray}.

Definition grid_path : string :=
  "/cluster/shared/noresm/inputdata/ocn/blom/grid/grid_tnx1v4_20170622.nc".

Definition cmip6_dir : string :=
  "/projects/NS9034K/CMIP6/CMIP/NCC/NorESM2-MM/piControl/r1i1p1f1/Ofx/".

Definition areacello_path : string :=
  (cmip6_dir ++ "areacello/gn/latest/areacello_Ofx_NorESM2-MM_piControl_r1i1p1f1_gn.nc")%string.

Definition sftof_path : string :=
  (cmip6_dir ++ "sftof/gn/latest/sftof_Ofx_NorESM2-MM_piControl_r1i1p1f1_gn.nc")%string.

Definition get_areacello (cmor : bool) : result X.t :=
  pweight <-
    (if negb cmor then
       grid <- open_dataset grid_path ;;
       parea <- getvar grid "parea" ;;
       pmask <- getvar grid "pmask" ;;
       let pweight := times parea (where_positive pmask) in
       plat <- getvar grid "plat" ;;
       let pweight := assign_coords "lat" plat pweight in
       plon <- getvar grid "plon" ;;
       let pweight := assign_coords "lon" plon pweight in
       Ok (Some pweight)
     else Ok None) ;;
  pweight <-
    (if cmor then
       area <- open_dataset areacello_path ;;
       mask <- open_dataset sftof_path ;;
       areacello <- getvar area "areacello" ;;
       sftof <- getvar mask "sftof" ;;
       Ok (Some (times areacello sftof))
     else Ok pweight) ;;
  pweight <- load_fast "pweight" pweight ;;
  consistent_naming pweight.

(** The area weights of a call: the ones passed in when they are a
    DataArray ([Some]), the ones of get_areacello otherwise. *)
Definition area_weights (pweight : option X.t) (cmor : bool) : result X.t :=
  match pweight with
  | Some p => Ok p
  | None => get_areacello cmor
  end.

(** One of the three closing statements of volumeavg_ocn:
    [if key in ds.attrs: ds_out.attrs[key] = value]. *)
Definition copy_attr (key : string) (value : string -> string) (ds : X.t)
    (ds_out : option X.t) : result (option X.t) :=
  match get_attr key (X.attrs ds) with
  | Some v =>
      out <- load_fast "ds_out" ds_out ;;
      Ok (Some (set_attr key (value v) out))
  | None => Ok ds_out
  end.

Definition volumeavg_ocn (ds dp : X.t) (pweight : option X.t) (cmor : bool)
  : result X.t :=
  pweight <- area_weights pweight cmor ;;
  locals <-
    (if mem "sigma" (coord_names ds) then
       ds <- sum_over ["sigma"] (times ds dp) ;;
       dpweight <- sum_over ["sigma"] dp ;;
       num <- sum_over ["j"; "i"] (times pweight ds) ;;
       den <- sum_over ["i"; "j"] (times pweight dpweight) ;;
       Ok (ds, Some (divide num den))
     else Ok (ds, None)) ;;
  let ds := fst locals in
  let ds_out := snd locals in
  ds_out <- copy_attr "long_name" (fun v => "Volume averaged " ++ v)%string ds ds_out ;;
  ds_out <- copy_attr "units" (fun v => v) ds ds_out ;;
  ds_out <- copy_attr "standard_name" (fun v => v) ds ds_out ;;
  load_fast "ds_out" ds_out.

End OceanAverages.

(** *** Sample objects *)

Definition raw_ocean : X.t :=
  X.mk [ X.mkVar "latitude" ["y"; "x"] true;
         X.mkVar "longitude" ["y"; "x"] true;
         X.mkVar "depth" ["depth"] true;
         X.mkVar "temp" ["depth"; "y"; "x"] false ]
       [("long_name", "temperature")].

Definition cmor_ocean : X.t :=
  X.mk [ X.mkVar "lat" ["j"; "i"] true;
         X.mkVar "lon" ["j"; "i"] true;
         X.mkVar "lev" ["lev"] true;
         X.mkVar "thetao" ["lev"; "j"; "i"] false ]
       [("long_name", "temperature"); ("units", "degC")].

Definition sigma_ocean : X.t :=
  X.mk [ X.mkVar "sigma" ["sigma"] true;
         X.mkVar "templvl" ["sigma"; "j"; "i"] false ]
       [("units", "degC")].

Definition areacello : X.t :=
  X.mk [ X.mkVar "areacello" ["j"; "i"] false ] [].

(** An xarray on a machine where none of the grid files can be opened;
    the arithmetic keeps the labels of its first operand. *)
Definition no_files : Xarray :=
  {| open_dataset := fun path => Raise (FileNotFoundError path);
     getvar := fun ds n => if mem n (var_names ds) then Ok ds else Raise (AttributeError n);
     times := fun a _ => X.mk (X.variables a) [];
     divide := fun a _ => X.mk (X.variables a) [];
     where_positive := fun a => a;
     assign_coords := fun _ _ a => a;
     sum_over := fun ds a =>
       if forallb (fun d => mem d (dim_names a)) ds
       then Ok (X.mk (X.variables a) [])
       else Raise (ValueError "dimension not found") |}.

(** The same xarray on a machine where the area and mask files exist. *)
Definition with_files : Xarray :=
  {| open_dataset := fun path => Ok areacello;
     getvar := fun ds n => Ok ds;
     times := @times no_files;
     divide := @divide no_files;
     where_positive := @where_positive no_files;
     assign_coords := @assign_coords no_files;
     sum_over := @sum_over no_files |}.

(** ** Further notions on the regridding functions *)

(** Neighbouring cells share a bound: the upper bound of each cell is the
    lower bound of the next. *)
Definition contiguous (b : array2) : Prop :=
  forall k, (S k < length b)%nat ->
            vertex 1 (nth k b []) = vertex 0 (nth (S k) b []).

(** The pair of bounds of cell [k] read back from an edge vector. *)
Definition cell_bounds (edges : array1) (k : nat) : list float :=
  [nth k edges 0%float; nth (S k) edges 0%float].

(** What concat_bnds indexes: the array has a cell, every cell has a bound 0
    and the last cell has a bound 1. *)
Definition bnds_ok (b : array2) : Prop :=
  b <> []
  /\ Forall (fun pair => (1 <= length pair)%nat) b
  /\ (2 <= length (last b []))%nat.

(** ** Further notions on the naming functions *)

(** The names consistent_naming introduces. *)
Definition canonical_names : list string :=
  ["lat"; "lon"; "basin"; "i"; "j"; "lev"; "bnds"].

(** None of them names a variable or a dimension of [ds]. *)
Definition uses_none (names : list string) (ds : X.t) : bool :=
  forallb (fun n => negb (mem n (var_names ds)) && negb (mem n (dim_names ds))) names.

(** What renaming keeps of a variable: whether it is a coordinate and how
    many dimensions it has. *)
Definition skeleton (ds : X.t) : list (bool * nat) :=
  map (fun v => (X.is_coord v, length (X.dims v))) (X.variables ds).

Definition conflict : exception := ValueError "the new name conflicts".

(** A test of consistent_naming only fires when [old] names a variable or a
    dimension. *)
Definition guarded (test : bool) (old : string) (ds : X.t) : Prop :=
  test = true -> mem old (var_names ds) || mem old (dim_names ds) = true.

(** ** areaavg_ocn *)

Section AreaAverage.
Context {xr : Xarray}.

(** [a.sum()], the sum over all dimensions. *)
Variable sum_all : X.t -> X.t.

(** Lines 389-410. *)
Definition areaavg_ocn (ds : X.t) (pweight : option X.t) (cmor : bool) : result X.t :=
  pweight <- area_weights pweight cmor ;;
  num <- sum_over ["j"; "i"] (times ds pweight) ;;
  let ds_out := Some (divide num (sum_all pweight)) in
  ds_out <- copy_attr "long_name" (fun v => "Globally averaged " ++ v)%string ds ds_out ;;
  ds_out <- copy_attr "units" (fun v => v) ds ds_out ;;
  ds_out <- copy_attr "standard_name" (fun v => v) ds ds_out ;;
  load_fast "ds_out" ds_out.

End AreaAverage.

(** [out] after [if key in ds.attrs: out.attrs[key] = value(ds.attrs[key])]. *)
Definition with_attr (key : string) (value : string -> string) (ds out : X.t) : X.t :=
  match get_attr key (X.attrs ds) with
  | Some v => set_attr key (value v) out
  | None => out
  end.

(** The attribute [key] that a function copying it from [ds] onto [out]
    leaves on its result. *)
Definition copied_attr (key : string) (value : string -> string) (ds out : X.t)
  : option string :=
  match get_attr key (X.attrs ds) with
  | Some v => Some (value v)
  | None => get_attr key (X.attrs out)
  end.

(** An xarray that keeps the attributes of the first operand, to tell the
    attributes of an input from those of a reduced array. *)
Definition keeps_attrs : Xarray :=
  {| open_dataset := fun path => Ok areacello;
     getvar := fun ds n => Ok ds;
     times := fun a _ => a;
     divide := fun a _ => a;
     where_positive := fun a => a;
     assign_coords := fun _ _ a => a;
     sum_over := fun _ a => Ok (X.mk (X.variables a) []) |}.

(** ** Shared corners *)

(** Neighbouring cells agree on the corners they share: vertex 1 of a cell
    is vertex 0 of the next cell of its row, vertex 3 is vertex 0 of the cell
    above, vertex 2 is vertex 0 of the cell above the next one; on the last
    column vertex 2 is vertex 1 of the cell above, and on the last row vertex
    2 is vertex 3 of the next cell. *)
Definition shared_corners (v : array3) (R C : nat) : Prop :=
  (forall r c, (r < R)%nat -> (S c < C)%nat ->
     vertex 1 (cell v r c) = vertex 0 (cell v r (S c)))
  /\ (forall r c, (S r < R)%nat -> (c < C)%nat ->
        vertex 3 (cell v r c) = vertex 0 (cell v (S r) c))
  /\ (forall r c, (S r < R)%nat -> (S c < C)%nat ->
        vertex 2 (cell v r c) = vertex 0 (cell v (S r) (S c)))
  /\ (forall r, (S r < R)%nat ->
        vertex 2 (cell v r (C - 1)) = vertex 1 (cell v (S r) (C - 1)))
  /\ (forall c, (S c < C)%nat ->
        vertex 2 (cell v (R - 1) c) = vertex 3 (cell v (R - 1) (S c))).

(** The four corners of cell (r, c) read from a mesh, in the order of the
    vertices: (r, c), (r, c + 1), (r + 1, c + 1), (r + 1, c). *)
Definition mesh_cell (m : array2) (r c : nat) : list float :=
  [entry m r c; entry m r (S c); entry m (S r) (S c); entry m (S r) c].

(** The vertices of 2 x 2 cells cut from one lattice, corner (r, c) holding
    10 r + c: neighbouring cells share their corners. *)
Definition lattice_vertices : array3 :=
  [[quad 0 1 11 10; quad 1 2 12 11];
   [quad 10 11 21 20; quad 11 12 22 21]]%float.

(** ** Changing the values of the bounds *)

Definition map_result {A B : Type} (f : A -> B) (r : result A) : result B :=
  match r with
  | Ok a => Ok (f a)
  | Raise e => Raise e
  end.

(** The dataset [ds] with every bound [b] replaced by [f b], and a returned
    grid with every edge [e] replaced by [f e]. *)
Definition map_bnds (f : float -> float) (ds : LatLonGrid.t) : LatLonGrid.t :=
  LatLonGrid.mk (LatLonGrid.lat ds) (LatLonGrid.lon ds)
    (map (map f) (LatLonGrid.lat_bnds ds)) (map (map f) (LatLonGrid.lon_bnds ds)).

Definition map_edges (f : float -> float) (g : OutGrid) : OutGrid :=
  {| o_lon := o_lon g; o_lat := o_lat g;
     o_lon_b := map f (o_lon_b g); o_lat_b := map f (o_lat_b g) |}.

(** ** An xarray for the area files *)

(** Datasets of the CMIP6 kind, as the area and the mask file hold them. *)
Definition areacello_file : X.t :=
  X.mk [ X.mkVar "latitude" ["j"; "i"] true;
         X.mkVar "longitude" ["j"; "i"] true;
         X.mkVar "areacello" ["j"; "i"] false ]
       [("source", "NorESM2-MM")].

Definition sftof_file : X.t :=
  X.mk [ X.mkVar "latitude" ["j"; "i"] true;
         X.mkVar "longitude" ["j"; "i"] true;
         X.mkVar "sftof" ["j"; "i"] false ]
       [("source", "NorESM2-MM")].

Definition this_array : string := "<this-array>".

(** [ds[n]]: the DataArray of the variable [n] with the coordinates of the
    dataset, held as its temporary dataset. *)
Definition data_array (n : string) (ds : X.t) : X.t :=
  X.mk (map (fun v => if String.eqb (X.name v) n
                      then X.mkVar this_array (X.dims v) false else v)
          (filter (fun v => X.is_coord v || String.eqb (X.name v) n) (X.variables ds)))
       [].

(** The dimensions of a DataArray. *)
Definition own_dims (a : X.t) : list string :=
  flat_map (fun v => if String.eqb (X.name v) this_array then X.dims v else [])
    (X.variables a).

(** The labels of [a * b] and of [a / b]: the coordinates of both operands,
    the dimensions of [a] followed by the further ones of [b], and no
    attributes. *)
Definition broadcast (a b : X.t) : X.t :=
  let d := own_dims a in
  X.mk (filter X.is_coord (X.variables a)
        ++ filter (fun v => X.is_coord v && negb (mem (X.name v) (coord_names a)))
             (X.variables b)
        ++ [X.mkVar this_array (d ++ filter (fun n => negb (mem n d)) (own_dims b)) false])
       [].

(** The labels of [a.sum(dim=ds)]: the dimensions [ds] and the coordinates
    that lie on them are removed, as are the attributes. *)
Definition reduce_over (ds : list string) (a : X.t) : X.t :=
  X.mk (map (fun v => if X.is_coord v then v
                      else X.mkVar (X.name v)
                             (filter (fun n => negb (mem n ds)) (X.dims v)) false)
          (filter (fun v => negb (X.is_coord v && existsb (fun n => mem n ds) (X.dims v)))
             (X.variables a)))
       [].

(** An xarray on a machine that has the area and the mask file and no other
    file, as far as names go. *)
Definition on_nird : Xarray :=
  {| open_dataset := fun path =>
       if String.eqb path areacello_path then Ok areacello_file
       else if String.eqb path sftof_path then Ok sftof_file
       else Raise (FileNotFoundError path);
     getvar := fun ds n =>
       if mem n (var_names ds) then Ok (data_array n ds) else Raise (AttributeError n);
     times := broadcast;
     divide := broadcast;
     where_positive := fun a => a;
     assign_coords := fun n c a =>
       X.mk (filter (fun v => negb (String.eqb (X.name v) n)) (X.variables a)
             ++ [X.mkVar n (own_dims c) true])
            (X.attrs a);
     sum_over := fun ds a =>
       if forallb (fun d => mem d (own_dims a)) ds
       then Ok (reduce_over ds a)
       else Raise (ValueError "dimension not found") |}.

(** * Proofs *)

(** ** Results and Python sequences *)

Lemma py_index_nat (A : Type) (l : list A) (k : nat) (d : A) :
  (k < length l)%nat -> py_index l (Z.of_nat k) = Ok (nth k l d).
Proof.
  intros Hk. unfold py_index.
  destruct (Z.ltb_spec (Z.of_nat k) 0) as [Hneg | _]; [lia |].
  destruct (Z.leb_spec 0 (Z.of_nat k)) as [_ | Hneg]; [| lia].
  destruct (Z.ltb_spec (Z.of_nat k) (Z.of_nat (length l))) as [_ | Hge]; [| lia].
  simpl. rewrite Nat2Z.id.
  destruct (nth_error l k) as [x |] eqn:E.
  - f_equal. symmetry. now apply nth_error_nth.
  - apply nth_error_None in E. lia.
Qed.

Lemma nth_pred_length_last (A : Type) (l : list A) (d : A) :
  l <> [] -> nth (length l - 1) l d = last l d.
Proof.
  induction l as [| a t IH]; [congruence | intros _].
  destruct t as [| b t]; [reflexivity |].
  replace (length (a :: b :: t) - 1)%nat with (S (length (b :: t) - 1)) by (simpl; lia).
  change (last (a :: b :: t) d) with (last (b :: t) d).
  rewrite <- IH by discriminate. reflexivity.
Qed.

Lemma Forall_firstn_keep (A : Type) (P : A -> Prop) (n : nat) (l : list A) :
  Forall P l -> Forall P (firstn n l).
Proof.
  intros H. revert n. induction H as [| x t Hx Ht IH]; intros [| n]; simpl; auto.
Qed.

Lemma py_index_last (A : Type) (l : list A) (d : A) :
  l <> [] -> py_index l (-1) = Ok (last l d).
Proof.
  intros Hne. unfold py_index.
  assert (Hlen : (0 < length l)%nat) by (destruct l; [congruence | simpl; lia]).
  change (-1 <? 0)%Z with true. cbv iota.
  destruct (Z.leb_spec 0 (-1 + Z.of_nat (length l))) as [_ | Hneg]; [| lia].
  destruct (Z.ltb_spec (-1 + Z.of_nat (length l)) (Z.of_nat (length l))) as [_ | Hge]; [| lia].
  cbn [andb]. replace (Z.to_nat (-1 + Z.of_nat (length l))) with (length l - 1)%nat by lia.
  destruct (nth_error l (length l - 1)) as [x |] eqn:E.
  - apply (nth_error_nth _ _ d) in E. rewrite <- E. f_equal. now apply nth_pred_length_last.
  - apply nth_error_None in E. lia.
Qed.

Lemma py_index_raises (A : Type) (l : list A) (k : Z) (e : exception) :
  py_index l k = Raise e -> e = IndexError.
Proof.
  unfold py_index.
  destruct ((0 <=? _) && _)%Z; [destruct (nth_error _ _) |]; congruence.
Qed.

Lemma mapM_ok (A B : Type) (f : A -> result B) (g : A -> B) (l : list A) :
  (forall x, In x l -> f x = Ok (g x)) -> mapM f l = Ok (map g l).
Proof.
  induction l as [| x t IH]; intros H; simpl; [reflexivity |].
  rewrite (H x (or_introl eq_refl)). simpl.
  rewrite IH by (intros y Hy; apply H; now right). reflexivity.
Qed.

Lemma mapM_raises (A B : Type) (f : A -> result B) (l : list A) (e : exception) :
  mapM f l = Raise e -> exists x, In x l /\ f x = Raise e.
Proof.
  induction l as [| x t IH]; simpl; [discriminate |].
  destruct (f x) as [y | e'] eqn:E; simpl.
  - destruct (mapM f t) as [ys | e''] eqn:E'; simpl; [discriminate |].
    intros [= ->]. destruct (IH eq_refl) as [z [Hz Hf]]. exists z. auto.
  - intros [= ->]. exists x. auto.
Qed.

Lemma mapM_ok_inv (A B : Type) (f : A -> result B) (l : list A) (ys : list B) :
  mapM f l = Ok ys -> forall x, In x l -> succeeds (f x).
Proof.
  revert ys. induction l as [| a t IH]; intros ys H x Hx; [destruct Hx |].
  simpl in H. destruct (f a) as [y |] eqn:Ea; [| discriminate].
  destruct (mapM f t) as [ys' |] eqn:Et; [| discriminate].
  destruct Hx as [<- | Hx]; [now exists y | exact (IH _ eq_refl x Hx)].
Qed.

Lemma py_index_ok_inv (A : Type) (l : list A) (k : Z) (x : A) :
  py_index l k = Ok x -> (- Z.of_nat (length l) <= k < Z.of_nat (length l))%Z.
Proof.
  unfold py_index. intros H.
  destruct (Z.ltb_spec k 0) as [Hk | Hk];
    match type of H with
    | (if ?c then _ else _) = _ => destruct c eqn:E; [| discriminate]
    end;
    apply andb_prop in E; destruct E as [E1 E2];
    apply Z.leb_le in E1; apply Z.ltb_lt in E2; lia.
Qed.

Lemma py_slice_to_length (A : Type) (l : list A) (s : Z) :
  (0 <= s <= Z.of_nat (length l))%Z -> length (py_slice_to s l) = Z.to_nat s.
Proof.
  intros Hs. unfold py_slice_to.
  destruct (Z.ltb_spec s 0) as [Hneg | _]; [lia |].
  rewrite Z.min_l by lia. rewrite length_firstn. lia.
Qed.

Lemma py_slice_to_all (A : Type) (l : list A) (s : Z) :
  (Z.of_nat (length l) <= s)%Z -> py_slice_to s l = l.
Proof.
  intros Hs. unfold py_slice_to.
  destruct (Z.ltb_spec s 0) as [Hneg | _]; [lia |].
  rewrite Z.min_r by lia. rewrite Nat2Z.id. apply firstn_all.
Qed.

Lemma py_slice_to_Forall (A : Type) (P : A -> Prop) (l : list A) (s : Z) :
  Forall P l -> Forall P (py_slice_to s l).
Proof. intros H. unfold py_slice_to. now apply Forall_firstn_keep. Qed.

Lemma mem_In (s : string) (l : list string) : mem s l = true <-> In s l.
Proof.
  unfold mem. rewrite existsb_exists. split.
  - intros [x [Hx E]]. apply String.eqb_eq in E. now subst.
  - intros H. exists s. split; [assumption | apply String.eqb_refl].
Qed.

Lemma mem_filter_other (a b : string) (l : list string) :
  a <> b -> mem a (filter (fun c => negb (String.eqb b c)) l) = mem a l.
Proof.
  intros Hab. induction l as [| c t IH]; simpl; [reflexivity |].
  destruct (String.eqb_spec b c) as [<- | Hbc]; simpl.
  - rewrite IH. destruct (String.eqb_spec a b); [contradiction | reflexivity].
  - now rewrite IH.
Qed.

(** ** The corner mesh *)

Lemma concat_i_map (A : Type) (f : A -> array1) (g : A -> float) (l : list A) :
  concat_i (map f l) (map g l) = Ok (map (fun x => f x ++ [g x]) l).
Proof.
  induction l as [| x t IH]; simpl; [reflexivity |]. now rewrite IH.
Qed.

Lemma py_index_vertex (k : nat) (quad : list float) :
  (k < length quad)%nat -> py_index quad (Z.of_nat k) = Ok (vertex k quad).
Proof. intros H. now apply py_index_nat. Qed.

Lemma shape3_last_row (v : array3) (R C : nat) :
  shape3 v R C 4 -> (1 <= R)%nat ->
  v <> [] /\ length (last v []) = C /\ Forall (fun quad => length quad = 4%nat) (last v []).
Proof.
  intros [Hlen Hrows] HR.
  assert (Hne : v <> []) by (destruct v; [simpl in Hlen; lia | discriminate]).
  split; [assumption |].
  rewrite Forall_forall in Hrows. apply Hrows.
  rewrite (app_removelast_last [] Hne) at 2. apply in_or_app. right. now left.
Qed.

Lemma row_last_cell (row : array2) (C : nat) :
  length row = C -> Forall (fun quad => length quad = 4%nat) row -> (1 <= C)%nat ->
  row <> [] /\ length (last row []) = 4%nat.
Proof.
  intros Hlen Hq HC.
  assert (Hne : row <> []) by (destruct row; [simpl in Hlen; lia | discriminate]).
  split; [assumption |].
  rewrite Forall_forall in Hq. apply Hq.
  rewrite (app_removelast_last [] Hne) at 2. apply in_or_app. right. now left.
Qed.

Lemma corner_mesh_ok (v : array3) (R C : nat) :
  shape3 v R C 4 -> (1 <= R)%nat -> (1 <= C)%nat ->
  corner_mesh v = Ok (corner_mesh_spec v).
Proof.
  intros Hv HR HC.
  destruct (shape3_last_row Hv HR) as [Hne [Hlast Hlastq]].
  destruct (row_last_cell Hlast Hlastq HC) as [Hne' Hcell].
  destruct Hv as [Hlen Hrows]. rewrite Forall_forall in Hrows.
  unfold corner_mesh, corner_mesh_spec.
  assert (E0 : isel_vertices 0 v = Ok (map (map (vertex 0)) v)).
  { unfold isel_vertices. apply mapM_ok. intros row Hrow. apply mapM_ok.
    intros quad Hq. destruct (Hrows row Hrow) as [_ Hqs].
    rewrite Forall_forall in Hqs. apply (@py_index_vertex 0). rewrite (Hqs quad Hq). lia. }
  assert (E1 : isel_vertices_i 1 (-1) v = Ok (map (fun row => vertex 1 (last row [])) v)).
  { unfold isel_vertices_i. apply mapM_ok. intros row Hrow.
    destruct (Hrows row Hrow) as [Hl Hqs].
    destruct (row_last_cell Hl Hqs HC) as [Hrne Hc].
    rewrite (py_index_last [] Hrne). simpl. apply (@py_index_vertex 1). lia. }
  assert (E3 : isel_vertices_j 3 (-1) v = Ok (map (vertex 3) (last v []))).
  { unfold isel_vertices_j. rewrite (py_index_last [] Hne). simpl. apply mapM_ok.
    intros quad Hq. rewrite Forall_forall in Hlastq.
    apply (@py_index_vertex 3). rewrite (Hlastq quad Hq). lia. }
  assert (E2 : isel_vertices_j_i 2 (-1) (-1) v = Ok (vertex 2 (last (last v []) []))).
  { unfold isel_vertices_j_i. rewrite (py_index_last [] Hne). simpl.
    rewrite (py_index_last [] Hne'). simpl. apply (@py_index_vertex 2). lia. }
  rewrite E0. simpl. rewrite E1. simpl. rewrite concat_i_map. simpl.
  rewrite E3. simpl. rewrite E2. simpl.
  unfold concat_j.
  replace (forallb _ _) with true; [reflexivity |].
  symmetry. apply forallb_forall. intros r Hr. apply Nat.eqb_eq.
  apply in_map_iff in Hr. destruct Hr as [row [<- Hrow]].
  destruct (Hrows row Hrow) as [Hl _].
  rewrite !length_app, !length_map. simpl. lia.
Qed.

Lemma corner_mesh_spec_shape (v : array3) (R C : nat) :
  shape3 v R C 4 -> (1 <= R)%nat -> shape2 (corner_mesh_spec v) (R + 1) (C + 1).
Proof.
  intros Hv HR.
  destruct (shape3_last_row Hv HR) as [_ [Hlast _]].
  destruct Hv as [Hlen Hrows].
  unfold corner_mesh_spec. split.
  - rewrite length_app, length_map. simpl. lia.
  - apply Forall_app. split.
    + apply Forall_map. eapply Forall_impl; [| exact Hrows].
      intros row [Hl _]. rewrite length_app, length_map. simpl. lia.
    + constructor; [| constructor]. rewrite length_app, length_map. simpl. lia.
Qed.

(** ** The polar clamp on binary64 values *)

Lemma ltb_leb (x y : float) : PrimFloat.ltb x y = true -> PrimFloat.leb x y = true.
Proof.
  rewrite ltb_spec, leb_spec. unfold SFltb, SFleb.
  destruct (SFcompare _ _) as [[] |]; congruence.
Qed.

Lemma SFcompare_pos_asym (m p : positive) (e k : Z) :
  SFltb (S754_finite false p k) (S754_finite false m e) = true ->
  SFltb (S754_finite false m e) (S754_finite false p k) = false.
Proof.
  unfold SFltb. cbn [SFcompare].
  change (PosDef.Pos.compare_cont Eq) with Pos.compare.
  rewrite (Z.compare_antisym e k), (Pos.compare_antisym m p).
  destruct (e ?= k)%Z, (m ?= p)%positive; cbn [CompOpp]; congruence.
Qed.

Lemma SFcompare_neg_asym (m p : positive) (e k : Z) :
  SFltb (S754_finite true m e) (S754_finite true p k) = true ->
  SFltb (S754_finite true p k) (S754_finite true m e) = false.
Proof.
  unfold SFltb. cbn [SFcompare].
  change (PosDef.Pos.compare_cont Eq) with Pos.compare.
  rewrite (Z.compare_antisym e k), (Pos.compare_antisym m p).
  destruct (e ?= k)%Z, (m ?= p)%positive; cbn [CompOpp]; congruence.
Qed.

Lemma Prim2SF_90 : Prim2SF 90 = S754_finite false 6333186975989760 (-46).
Proof. vm_compute. reflexivity. Qed.

Lemma Prim2SF_minus_90 : Prim2SF (-90) = S754_finite true 6333186975989760 (-46).
Proof. vm_compute. reflexivity. Qed.

Lemma above_90_not_below (x : float) :
  PrimFloat.ltb 90 x = true -> PrimFloat.ltb x 90 = false.
Proof.
  rewrite !ltb_spec, Prim2SF_90.
  destruct (Prim2SF x) as [s | s | | s m e]; try destruct s;
    try (unfold SFltb; cbn [SFcompare]; congruence).
  apply SFcompare_pos_asym.
Qed.

Lemma below_minus_90 (x : float) :
  PrimFloat.ltb x (-90) = true ->
  PrimFloat.ltb x 90 = true /\ PrimFloat.ltb (-90) x = false.
Proof.
  rewrite !ltb_spec, Prim2SF_90, Prim2SF_minus_90.
  destruct (Prim2SF x) as [s | s | | s m e]; try destruct s;
    try (unfold SFltb; cbn [SFcompare]; intros; split; congruence).
  intros H. split; [reflexivity | now apply SFcompare_neg_asym].
Qed.

Lemma clamp_value_in_range (x : float) : in_polar_range (clamp_value x).
Proof.
  unfold clamp_value, in_polar_range.
  destruct (PrimFloat.ltb x 90) eqn:Hhi.
  - destruct (PrimFloat.ltb (-90) x) eqn:Hlo.
    + split; now apply ltb_leb.
    + split; reflexivity.
  - change (PrimFloat.ltb (-90) 90) with true. cbv iota. split; reflexivity.
Qed.

Lemma polar_clamp_map (a : array2) : polar_clamp a = map (map clamp_value) a.
Proof.
  unfold polar_clamp, where_. rewrite map_map. apply map_ext. intros row.
  rewrite map_map. reflexivity.
Qed.

Lemma polar_clamp_shape (a : array2) (R C : nat) :
  shape2 a R C -> shape2 (polar_clamp a) R C.
Proof.
  intros [Hlen Hrows]. rewrite polar_clamp_map. split.
  - now rewrite length_map.
  - apply Forall_map. eapply Forall_impl; [| exact Hrows].
    intros row Hl. now rewrite length_map.
Qed.

(** ** make_bounds on well-formed vertex arrays *)

Lemma drop_lon_lat_ok (V : Type) (da : DataArray V) :
  mem "lon" (coords da) = true -> mem "lat" (coords da) = true ->
  exists d, drop_lon_lat da = Ok d /\ values d = values da.
Proof.
  intros Hlon Hlat. unfold drop_lon_lat, drop. rewrite Hlon. cbn [bind coords values].
  rewrite mem_filter_other by discriminate. rewrite Hlat.
  eexists. split; reflexivity.
Qed.

Lemma strip_labels_ok (V : Type) (da : DataArray V) (found : bool) :
  (found = true -> mem "lon" (coords da) = true /\ mem "lat" (coords da) = true) ->
  exists d, (if found then drop_lon_lat da else Ok da) = Ok d /\ values d = values da.
Proof.
  destruct found; intros H.
  - destruct (H eq_refl) as [Hlon Hlat]. now apply drop_lon_lat_ok.
  - exists da. split; reflexivity.
Qed.

Lemma labels_ok_centres (ds : ModelGrid.t) :
  labels_ok ds = true ->
  mem "lat" (coords (ModelGrid.lon ds)) = true ->
  (mem "lon" (coords (ModelGrid.lat ds)) = true /\ mem "lat" (coords (ModelGrid.lat ds)) = true)
  /\ (mem "lon" (coords (ModelGrid.lon ds)) = true /\ mem "lat" (coords (ModelGrid.lon ds)) = true).
Proof.
  unfold labels_ok. intros H E. rewrite E in H. cbn [negb orb] in H.
  apply andb_prop in H. destruct H as [H _].
  apply andb_prop in H. destruct H as [H H3].
  apply andb_prop in H. destruct H as [H1 H2]. auto.
Qed.

Lemma labels_ok_corners (ds : ModelGrid.t) :
  labels_ok ds = true ->
  mem "lat" (coords (ModelGrid.vertices_longitude ds)) = true ->
  (mem "lon" (coords (ModelGrid.vertices_longitude ds)) = true
   /\ mem "lat" (coords (ModelGrid.vertices_longitude ds)) = true)
  /\ (mem "lon" (coords (ModelGrid.vertices_latitude ds)) = true
      /\ mem "lat" (coords (ModelGrid.vertices_latitude ds)) = true).
Proof.
  unfold labels_ok. intros H E. rewrite E in H. cbn [negb orb] in H.
  apply andb_prop in H. destruct H as [_ H].
  apply andb_prop in H. destruct H as [H H3].
  apply andb_prop in H. destruct H as [H1 H2]. auto.
Qed.

Lemma make_bounds_returns (modelname : string) (ds : ModelGrid.t) (seaice : bool)
    (R C : nat) :
  vertices_ok ds R C ->
  exists g,
    make_bounds modelname ds seaice = Ok g
    /\ values (g_lat g) =
       py_slice_to (effective_ny modelname seaice
                      (Z.of_nat (length (values (ModelGrid.lat ds)))))
         (values (ModelGrid.lat ds))
    /\ values (g_lon g) =
       py_slice_to (effective_ny modelname seaice
                      (Z.of_nat (length (values (ModelGrid.lat ds)))))
         (values (ModelGrid.lon ds))
    /\ values (g_lon_b g) =
       py_slice_to (effective_ny modelname seaice
                      (Z.of_nat (length (values (ModelGrid.lat ds)))) + 1)
         (corner_mesh_spec (values (ModelGrid.vertices_longitude ds)))
    /\ values (g_lat_b g) =
       polar_clamp
         (py_slice_to (effective_ny modelname seaice
                         (Z.of_nat (length (values (ModelGrid.lat ds)))) + 1)
            (corner_mesh_spec (values (ModelGrid.vertices_latitude ds)))).
Proof.
  intros [HR HC Hvlat Hvlon Hlab].
  unfold make_bounds. cbv zeta.
  set (ny := effective_ny modelname seaice _).
  destruct (@strip_labels_ok _ (isel_j_slice ny (ModelGrid.lat ds))
              (mem "lat" (coords (ModelGrid.lon ds)))) as [la [Ela Vla]].
  { intros E. apply (labels_ok_centres _ Hlab E). }
  destruct (@strip_labels_ok _ (isel_j_slice ny (ModelGrid.lon ds))
              (mem "lat" (coords (ModelGrid.lon ds)))) as [lo [Elo Vlo]].
  { intros E. apply (labels_ok_centres _ Hlab E). }
  rewrite Ela. cbn [bind]. rewrite Elo. cbn [bind].
  unfold concat_vertices.
  rewrite (corner_mesh_ok Hvlon HR HC). cbn [bind].
  rewrite (corner_mesh_ok Hvlat HR HC). cbn [bind coords].
  destruct (@strip_labels_ok _
              (isel_j_slice (ny + 1)
                 {| values := corner_mesh_spec (values (ModelGrid.vertices_longitude ds));
                    coords := coords (ModelGrid.vertices_longitude ds) |})
              (mem "lat" (coords (ModelGrid.vertices_longitude ds)))) as [lob [Elob Vlob]].
  { intros E. apply (labels_ok_corners _ Hlab E). }
  destruct (@strip_labels_ok _
              (isel_j_slice (ny + 1)
                 {| values := corner_mesh_spec (values (ModelGrid.vertices_latitude ds));
                    coords := coords (ModelGrid.vertices_latitude ds) |})
              (mem "lat" (coords (ModelGrid.vertices_longitude ds)))) as [lab [Elab Vlab]].
  { intros E. apply (labels_ok_corners _ Hlab E). }
  rewrite Elob. cbn [bind]. rewrite Elab. cbn [bind].
  eexists. split; [reflexivity |]. cbn [g_lat g_lon g_lon_b g_lat_b values].
  rewrite Vla, Vlo, Vlob, Vlab. cbn [isel_j_slice values]. auto.
Qed.

Lemma effective_ny_cases (modelname : string) (seaice : bool) (ny : Z) :
  effective_ny modelname seaice ny = ny \/ effective_ny modelname seaice ny = (ny - 1)%Z.
Proof. unfold effective_ny. destruct (_ && _); auto. Qed.

Lemma py_slice_to_shape (a : array2) (R C : nat) (s : Z) :
  shape2 a R C -> (0 <= s <= Z.of_nat R)%Z -> shape2 (py_slice_to s a) (Z.to_nat s) C.
Proof.
  intros [Hlen Hrows] Hs. split.
  - apply py_slice_to_length. lia.
  - now apply py_slice_to_Forall.
Qed.

Lemma succeeds_not_fails (A : Type) (r : result A) : succeeds r -> ~ fails r.
Proof. intros [a ->] [e H]. discriminate. Qed.

(** make_bounds at work: the coordinates lat and lon are dropped where they
    are found, dropping one that is missing raises, and so does an empty
    grid. *)
Example make_bounds_drops_labels :
  make_bounds "NorESM2-LM" grid_2x2_labelled true
  = Ok (mkGeometry (plain [[5; 6]]%float) (plain [[1; 2]]%float)
          (plain [[0; 10; 11]; [20; 30; 31]]%float)
          (plain [[0; 10; 11]; [20; 30; 31]]%float)).
Proof. reflexivity. Qed.

Example make_bounds_missing_label :
  make_bounds "NorESM2-LM"
    (ModelGrid.mk (plain [[1]]%float) {| values := [[1]]%float; coords := ["lat"] |}
       (plain [[quad 0 0 1 1]]) (plain [[quad 0 1 1 0]])) false
  = Raise (ValueError "One or more of the specified variables cannot be found").
Proof. reflexivity. Qed.

Example make_bounds_empty_grid :
  make_bounds "NorESM2-LM" (ModelGrid.mk (plain []) (plain []) (plain []) (plain [])) true
  = Raise IndexError.
Proof. reflexivity. Qed.

Lemma nth_map_default (A B : Type) (f : A -> B) (l : list A) (n : nat) (d : A) (d' : B) :
  (n < length l)%nat -> nth n (map f l) d' = f (nth n l d).
Proof.
  intros H. rewrite (nth_indep _ d' (f d)) by now rewrite length_map.
  apply map_nth.
Qed.

Lemma last_nth_pred (A : Type) (l : list A) (d : A) :
  l <> [] -> last l d = nth (length l - 1) l d.
Proof. intros H. symmetry. now apply nth_pred_length_last. Qed.

(** The entries of the mesh, corner by corner. *)
Lemma corner_mesh_spec_entries (v : array3) (R C : nat) :
  shape3 v R C 4 -> (1 <= R)%nat -> (1 <= C)%nat ->
  (forall r c, (r < R)%nat -> (c < C)%nat ->
     entry (corner_mesh_spec v) r c = vertex 0 (cell v r c))
  /\ (forall r, (r < R)%nat ->
        entry (corner_mesh_spec v) r C = vertex 1 (cell v r (C - 1)))
  /\ (forall c, (c < C)%nat ->
        entry (corner_mesh_spec v) R c = vertex 3 (cell v (R - 1) c))
  /\ entry (corner_mesh_spec v) R C = vertex 2 (cell v (R - 1) (C - 1)).
Proof.
  intros Hv HR HC.
  destruct (shape3_last_row Hv HR) as [Hne [Hlast Hlastq]].
  destruct (row_last_cell Hlast Hlastq HC) as [Hne' _].
  destruct Hv as [Hlen Hrows]. rewrite Forall_forall in Hrows.
  assert (Hrow : forall r, (r < R)%nat -> length (nth r v []) = C).
  { intros r Hr. apply Hrows. apply nth_In. lia. }
  assert (Hbody : forall r, (r < R)%nat ->
            nth r (corner_mesh_spec v) [] =
            map (vertex 0) (nth r v []) ++ [vertex 1 (last (nth r v []) [])]).
  { intros r Hr. unfold corner_mesh_spec.
    rewrite app_nth1 by (rewrite length_map; lia).
    now rewrite (@nth_map_default _ _ _ v r [] []) by lia. }
  assert (Htop : nth R (corner_mesh_spec v) [] =
                 map (vertex 3) (last v []) ++ [vertex 2 (last (last v []) [])]).
  { unfold corner_mesh_spec.
    rewrite app_nth2 by (rewrite length_map; lia).
    rewrite length_map, Hlen, Nat.sub_diag. reflexivity. }
  assert (Hlastv : last v [] = nth (R - 1) v []).
  { rewrite (last_nth_pred [] Hne). now rewrite Hlen. }
  unfold entry, cell. repeat split.
  - intros r c Hr Hc. rewrite (Hbody r Hr).
    rewrite app_nth1 by (rewrite length_map, (Hrow r Hr); lia).
    apply nth_map_default. rewrite (Hrow r Hr). lia.
  - intros r Hr. rewrite (Hbody r Hr).
    rewrite app_nth2 by (rewrite length_map, (Hrow r Hr); lia).
    rewrite length_map, (Hrow r Hr), Nat.sub_diag. cbn [nth].
    f_equal. rewrite last_nth_pred.
    + now rewrite (Hrow r Hr).
    + intros E. specialize (Hrow r Hr). rewrite E in Hrow. simpl in Hrow. lia.
  - intros c Hc. rewrite Htop.
    rewrite app_nth1 by (rewrite length_map, Hlast; lia).
    rewrite <- Hlastv. apply nth_map_default. rewrite Hlast. lia.
  - rewrite Htop.
    rewrite app_nth2 by (rewrite length_map, Hlast; lia).
    rewrite length_map, Hlast, Nat.sub_diag. cbn [nth].
    f_equal. rewrite <- Hlastv. rewrite (last_nth_pred [] Hne'). now rewrite Hlast.
Qed.

(** ** Claims on make_bounds *)

Lemma effective_ny_known (modelname : string) (ny : Z) :
  In modelname trimmed_models ->
  effective_ny modelname true ny = (ny - 1)%Z /\ effective_ny modelname false ny = ny.
Proof.
  intros H. apply mem_In in H. unfold effective_ny. rewrite H. auto.
Qed.


Lemma make_bounds_rows (modelname : string) (ds : ModelGrid.t) (seaice : bool)
    (R C : nat) (ny : Z) :
  vertices_ok ds R C -> centres_ok ds R C ->
  effective_ny modelname seaice (Z.of_nat R) = ny -> (0 <= ny <= Z.of_nat R)%Z ->
  exists g,
    make_bounds modelname ds seaice = Ok g
    /\ shape2 (values (g_lat g)) (Z.to_nat ny) C
    /\ shape2 (values (g_lon g)) (Z.to_nat ny) C
    /\ shape2 (values (g_lat_b g)) (Z.to_nat ny + 1) (C + 1)
    /\ shape2 (values (g_lon_b g)) (Z.to_nat ny + 1) (C + 1).
Proof.
  intros Hv [Hlat Hlon] Hny Hrange.
  destruct (make_bounds_returns modelname seaice Hv) as [g [E [Vlat [Vlon [Vlonb Vlatb]]]]].
  exists g. split; [exact E |].
  rewrite (proj1 Hlat), Hny in *.
  rewrite Vlat, Vlon, Vlonb, Vlatb.
  destruct Hv as [HR HC Hvlat Hvlon _].
  replace (Z.to_nat ny + 1)%nat with (Z.to_nat (ny + 1)) by lia.
  repeat split.
  - apply py_slice_to_length. rewrite (proj1 Hlat). lia.
  - apply py_slice_to_Forall, Hlat.
  - apply py_slice_to_length. rewrite (proj1 Hlon). lia.
  - apply py_slice_to_Forall, Hlon.
  - apply (polar_clamp_shape (R := Z.to_nat (ny + 1)) (C := C + 1)).
    apply py_slice_to_shape with (R := (R + 1)%nat); [| lia].
    now apply corner_mesh_spec_shape.
  - apply (polar_clamp_shape (R := Z.to_nat (ny + 1)) (C := C + 1)).
    apply py_slice_to_shape with (R := (R + 1)%nat); [| lia].
    now apply corner_mesh_spec_shape.
  - apply py_slice_to_length.
    rewrite (proj1 (corner_mesh_spec_shape Hvlon HR)). lia.
  - apply py_slice_to_Forall. apply (corner_mesh_spec_shape Hvlon HR).
Qed.

(** C1, as the code has it: for NorESM2-LM and NorESM2-MM the last row is
    dropped when [seaice] is true, so that R rows of centres give R - 1 rows
    of centres and R rows of corners; when [seaice] is false the R rows are
    kept and the corners have R + 1 rows. *)
Theorem make_bounds_trims_for_sea_ice (modelname : string) (ds : ModelGrid.t)
    (R C : nat) :
  In modelname trimmed_models -> vertices_ok ds R C -> centres_ok ds R C ->
  effective_ny modelname true (Z.of_nat R) = (Z.of_nat R - 1)%Z
  /\ effective_ny modelname false (Z.of_nat R) = Z.of_nat R
  /\ (exists g,
        make_bounds modelname ds true = Ok g
        /\ shape2 (values (g_lat g)) (R - 1) C
        /\ shape2 (values (g_lon g)) (R - 1) C
        /\ shape2 (values (g_lat_b g)) R (C + 1)
        /\ shape2 (values (g_lon_b g)) R (C + 1))
  /\ (exists g,
        make_bounds modelname ds false = Ok g
        /\ shape2 (values (g_lat g)) R C
        /\ shape2 (values (g_lon g)) R C
        /\ shape2 (values (g_lat_b g)) (R + 1) (C + 1)
        /\ shape2 (values (g_lon_b g)) (R + 1) (C + 1)).
Proof.
  intros Hm Hv Hc.
  destruct (effective_ny_known (Z.of_nat R) Hm) as [Et Ef].
  assert (HR : (1 <= R)%nat) by apply Hv.
  split; [exact Et |]. split; [exact Ef |]. split.
  - destruct (@make_bounds_rows modelname ds true R C _ Hv Hc Et) as [g Hg]; [lia |].
    exists g.
    replace (Z.to_nat (Z.of_nat R - 1)) with (R - 1)%nat in Hg by lia.
    replace (R - 1 + 1)%nat with R in Hg by lia. exact Hg.
  - destruct (@make_bounds_rows modelname ds false R C _ Hv Hc Ef) as [g Hg]; [lia |].
    exists g. rewrite Nat2Z.id in Hg. exact Hg.
Qed.

Lemma grid_2x2_vertices_ok : vertices_ok grid_2x2 2 2.
Proof.
  constructor; try lia; try reflexivity; split; try reflexivity; repeat constructor.
Qed.

Lemma grid_2x2_centres_ok : centres_ok grid_2x2 2 2.
Proof. constructor; split; try reflexivity; repeat constructor. Qed.

Lemma make_bounds_trims_for_sea_ice_witness :
  exists g,
    make_bounds "NorESM2-MM" grid_2x2 true = Ok g
    /\ shape2 (values (g_lat g)) 1 2
    /\ shape2 (values (g_lon g)) 1 2
    /\ shape2 (values (g_lat_b g)) 2 3
    /\ shape2 (values (g_lon_b g)) 2 3.
Proof.
  apply (@make_bounds_trims_for_sea_ice "NorESM2-MM" grid_2x2 2 2).
  - right. left. reflexivity.
  - exact grid_2x2_vertices_ok.
  - exact grid_2x2_centres_ok.
Defined.

(** C1 as stated fails: on 385 rows of NorESM2-LM with [seaice] false the
    geometry keeps 385 rows of centres (386 of corners), not 384; it is with
    [seaice] true that 384 are kept. *)
Lemma make_bounds_385_rows_not_sea_ice :
  effective_ny "NorESM2-LM" false 385 = 385%Z
  /\ centre_rows (make_bounds "NorESM2-LM" grid_385 false) = Some 385%nat
  /\ centre_rows (make_bounds "NorESM2-LM" grid_385 false) <> Some 384%nat
  /\ corner_rows (make_bounds "NorESM2-LM" grid_385 false) = Some 386%nat
  /\ centre_rows (make_bounds "NorESM2-LM" grid_385 true) = Some 384%nat
  /\ centre_rows (make_bounds "NorESM2-LM" grid_385 true) <> Some 385%nat.
Proof.
  assert (E1 : centre_rows (make_bounds "NorESM2-LM" grid_385 false) = Some 385%nat)
    by (vm_compute; reflexivity).
  assert (E2 : centre_rows (make_bounds "NorESM2-LM" grid_385 true) = Some 384%nat)
    by (vm_compute; reflexivity).
  split; [reflexivity |]. split; [exact E1 |].
  split; [rewrite E1; discriminate |].
  split; [vm_compute; reflexivity |]. split; [exact E2 |].
  rewrite E2. discriminate.
Qed.

(** C2: the corner mesh of lines 44-47 is the block of the vertices 0 of
    every cell, with one more column from the vertex 1 of the last cell of
    each row and one more row from the vertices 3 of the last row and the
    vertex 2 of its last cell, for the longitudes and for the latitudes; the
    geometry returned holds the first [ny + 1] rows of it (all of them when
    no row is dropped), the latitudes clamped. *)
Theorem make_bounds_corner_mesh_assembly (modelname : string) (ds : ModelGrid.t)
    (seaice : bool) (R C : nat) :
  vertices_ok ds R C ->
  forall v, v = values (ModelGrid.vertices_longitude ds)
            \/ v = values (ModelGrid.vertices_latitude ds) ->
  corner_mesh v = Ok (corner_mesh_spec v)
  /\ shape2 (corner_mesh_spec v) (R + 1) (C + 1)
  /\ (forall r c, (r < R)%nat -> (c < C)%nat ->
        entry (corner_mesh_spec v) r c = vertex 0 (cell v r c))
  /\ (forall r, (r < R)%nat ->
        entry (corner_mesh_spec v) r C = vertex 1 (cell v r (C - 1)))
  /\ (forall c, (c < C)%nat ->
        entry (corner_mesh_spec v) R c = vertex 3 (cell v (R - 1) c))
  /\ entry (corner_mesh_spec v) R C = vertex 2 (cell v (R - 1) (C - 1))
  /\ exists g,
       make_bounds modelname ds seaice = Ok g
       /\ values (g_lon_b g) =
          py_slice_to (effective_ny modelname seaice
                         (Z.of_nat (length (values (ModelGrid.lat ds)))) + 1)
            (corner_mesh_spec (values (ModelGrid.vertices_longitude ds)))
       /\ values (g_lat_b g) =
          polar_clamp
            (py_slice_to (effective_ny modelname seaice
                            (Z.of_nat (length (values (ModelGrid.lat ds)))) + 1)
               (corner_mesh_spec (values (ModelGrid.vertices_latitude ds))))
       /\ ((Z.of_nat R <=
            effective_ny modelname seaice
              (Z.of_nat (length (values (ModelGrid.lat ds)))))%Z ->
           values (g_lon_b g) =
             corner_mesh_spec (values (ModelGrid.vertices_longitude ds))
           /\ values (g_lat_b g) =
              polar_clamp (corner_mesh_spec (values (ModelGrid.vertices_latitude ds)))).
Proof.
  intros Hv v Hsel.
  destruct (make_bounds_returns modelname seaice Hv) as [g [E [_ [_ [Vlonb Vlatb]]]]].
  destruct Hv as [HR HC Hvlat Hvlon _].
  assert (Hshape : shape3 v R C 4) by (destruct Hsel as [-> | ->]; assumption).
  destruct (corner_mesh_spec_entries Hshape HR HC) as [H0 [H1 [H3 H2]]].
  split; [now apply (corner_mesh_ok Hshape) |].
  split; [now apply corner_mesh_spec_shape |].
  split; [exact H0 |]. split; [exact H1 |]. split; [exact H3 |]. split; [exact H2 |].
  exists g. split; [exact E |]. split; [exact Vlonb |]. split; [exact Vlatb |].
  intros Hall. rewrite Vlonb, Vlatb.
  rewrite !py_slice_to_all; [auto | |].
  - rewrite (proj1 (corner_mesh_spec_shape Hvlat HR)). lia.
  - rewrite (proj1 (corner_mesh_spec_shape Hvlon HR)). lia.
Qed.

Lemma make_bounds_corner_mesh_assembly_witness :
  corner_mesh (values (ModelGrid.vertices_latitude grid_2x2)) =
  Ok [[0; 10; 11]; [20; 30; 31]; [23; -91; 95]]%float.
Proof.
  apply (@make_bounds_corner_mesh_assembly "NorESM2-LM" grid_2x2 false 2 2
           grid_2x2_vertices_ok (values (ModelGrid.vertices_latitude grid_2x2))).
  right. reflexivity.
Defined.

(** C3: for centres of R x C cells, of which [R'] rows are kept, the corner
    arrays returned have [R' + 1] rows and [C + 1] columns, and the centres
    returned have [R'] rows and [C] columns. *)
Theorem make_bounds_corner_shape (modelname : string) (ds : ModelGrid.t)
    (seaice : bool) (R C : nat) :
  vertices_ok ds R C -> centres_ok ds R C ->
  exists (g : Geometry) (R' : nat),
    make_bounds modelname ds seaice = Ok g
    /\ Z.of_nat R' = effective_ny modelname seaice (Z.of_nat R)
    /\ shape2 (values (g_lat g)) R' C
    /\ shape2 (values (g_lon g)) R' C
    /\ shape2 (values (g_lat_b g)) (R' + 1) (C + 1)
    /\ shape2 (values (g_lon_b g)) (R' + 1) (C + 1).
Proof.
  intros Hv Hc.
  assert (HR : (1 <= R)%nat) by apply Hv.
  assert (Hrange : (0 <= effective_ny modelname seaice (Z.of_nat R) <= Z.of_nat R)%Z)
    by (destruct (effective_ny_cases modelname seaice (Z.of_nat R)); lia).
  destruct (make_bounds_rows modelname seaice Hv Hc eq_refl Hrange) as [g [E Hg]].
  exists g, (Z.to_nat (effective_ny modelname seaice (Z.of_nat R))).
  split; [exact E |]. split; [lia | exact Hg].
Qed.

Lemma make_bounds_corner_shape_witness :
  exists (g : Geometry) (R' : nat),
    make_bounds "NorESM2-LM" grid_2x2 false = Ok g
    /\ Z.of_nat R' = effective_ny "NorESM2-LM" false 2
    /\ shape2 (values (g_lat g)) R' 2
    /\ shape2 (values (g_lon g)) R' 2
    /\ shape2 (values (g_lat_b g)) (R' + 1) 3
    /\ shape2 (values (g_lon_b g)) (R' + 1) 3.
Proof.
  exact (make_bounds_corner_shape "NorESM2-LM" false
           grid_2x2_vertices_ok grid_2x2_centres_ok).
Defined.

Lemma drop_values (V : Type) (n : string) (da d : DataArray V) :
  drop n da = Ok d -> values d = values da.
Proof. unfold drop. destruct (mem n (coords da)); [| discriminate]. now intros [= <-]. Qed.

Lemma strip_values (V : Type) (found : bool) (da d : DataArray V) :
  (if found then drop_lon_lat da else Ok da) = Ok d -> values d = values da.
Proof.
  destruct found; [| now intros [= <-]].
  unfold drop_lon_lat. destruct (drop "lon" da) as [d' |] eqn:E; [| discriminate].
  cbn [bind]. intros H. rewrite (drop_values _ _ H). exact (drop_values _ _ E).
Qed.

Lemma make_bounds_clamps (modelname : string) (ds : ModelGrid.t) (seaice : bool)
    (g : Geometry) :
  make_bounds modelname ds seaice = Ok g ->
  exists mesh,
    corner_mesh (values (ModelGrid.vertices_latitude ds)) = Ok mesh
    /\ values (g_lat_b g) =
       polar_clamp
         (py_slice_to (effective_ny modelname seaice
                         (Z.of_nat (length (values (ModelGrid.lat ds)))) + 1) mesh).
Proof.
  unfold make_bounds. cbv zeta. unfold concat_vertices.
  destruct (corner_mesh (values (ModelGrid.vertices_latitude ds))) as [mesh | e] eqn:Em;
    repeat (cbn [bind];
            match goal with
            | |- context [bind ?r _] => destruct r eqn:?; try discriminate
            end);
    cbn [bind]; try discriminate.
  intros [= <-]. exists mesh. split; [reflexivity |].
  cbn [g_lat_b values].
  match goal with
  | H : (if _ then drop_lon_lat (isel_j_slice _ {| values := mesh; coords := _ |}) else _)
        = Ok _ |- _ => rewrite (strip_values _ _ H)
  end.
  reflexivity.
Qed.

(** C4: whatever the vertex latitudes are, every corner latitude of the
    geometry returned lies in [-90, 90]: each is the clamped value of the
    corner it comes from, where a value above 90 becomes 90, a value below
    -90 becomes -90, and a value strictly between the two is kept.  On vertex
    arrays of R x C cells a geometry is returned. *)
Theorem make_bounds_polar_clamp (modelname : string) (ds : ModelGrid.t)
    (seaice : bool) :
  (forall g,
      make_bounds modelname ds seaice = Ok g ->
      Forall (Forall in_polar_range) (values (g_lat_b g))
      /\ exists mesh,
           corner_mesh (values (ModelGrid.vertices_latitude ds)) = Ok mesh
           /\ values (g_lat_b g) =
              map (map clamp_value)
                (py_slice_to (effective_ny modelname seaice
                                (Z.of_nat (length (values (ModelGrid.lat ds)))) + 1)
                   mesh))
  /\ (forall R C,
        vertices_ok ds R C ->
        exists g,
          make_bounds modelname ds seaice = Ok g
          /\ Forall (Forall in_polar_range) (values (g_lat_b g)))
  /\ (forall x, PrimFloat.ltb 90 x = true -> clamp_value x = 90%float)
  /\ (forall x, PrimFloat.ltb x (-90) = true -> clamp_value x = (-90)%float)
  /\ (forall x, PrimFloat.ltb (-90) x = true -> PrimFloat.ltb x 90 = true ->
        clamp_value x = x).
Proof.
  assert (Hin : forall g, make_bounds modelname ds seaice = Ok g ->
                  Forall (Forall in_polar_range) (values (g_lat_b g))
                  /\ exists mesh,
                       corner_mesh (values (ModelGrid.vertices_latitude ds)) = Ok mesh
                       /\ values (g_lat_b g) =
                          map (map clamp_value)
                            (py_slice_to
                               (effective_ny modelname seaice
                                  (Z.of_nat (length (values (ModelGrid.lat ds)))) + 1)
                               mesh)).
  { intros g H. destruct (make_bounds_clamps _ _ _ H) as [mesh [Em Ev]].
    rewrite polar_clamp_map in Ev. split.
    - rewrite Ev. apply Forall_map, Forall_forall. intros row _.
      apply Forall_map, Forall_forall. intros x _. apply clamp_value_in_range.
    - exists mesh. auto. }
  split; [exact Hin |]. split; [| split; [| split]].
  - intros R C Hv. destruct (make_bounds_returns modelname seaice Hv) as [g [E _]].
    exists g. split; [exact E | apply (Hin g E)].
  - intros x Hx. unfold clamp_value. rewrite (above_90_not_below Hx). reflexivity.
  - intros x Hx. unfold clamp_value. destruct (below_minus_90 Hx) as [-> Hlo].
    now rewrite Hlo.
  - intros x Hlo Hhi. unfold clamp_value. now rewrite Hhi, Hlo.
Qed.

Lemma make_bounds_polar_clamp_witness :
  exists g,
    make_bounds "NorESM2-LM" grid_2x2 false = Ok g
    /\ values (g_lat_b g) = [[0; 10; 11]; [20; 30; 31]; [23; -90; 90]]%float
    /\ Forall (Forall in_polar_range) (values (g_lat_b g)).
Proof.
  eexists. split; [reflexivity |]. split; [reflexivity |].
  apply (proj1 (make_bounds_polar_clamp "NorESM2-LM" grid_2x2 false)). reflexivity.
Defined.




(** ** Claims on mk_outgrid *)

Lemma concat_bnds_ok (b : array2) (N : nat) :
  shape2 b N 2 -> (1 <= N)%nat ->
  concat_bnds b = Ok (map (vertex 0) b ++ [vertex 1 (last b [])]).
Proof.
  intros [Hlen Hrows] HN. rewrite Forall_forall in Hrows.
  assert (Hne : b <> []) by (destruct b; [simpl in Hlen; lia | discriminate]).
  assert (Hlast : length (last b []) = 2%nat).
  { apply Hrows. rewrite (app_removelast_last [] Hne) at 2.
    apply in_or_app. right. now left. }
  unfold concat_bnds, isel_bnds, isel_cell_bnds.
  rewrite (@mapM_ok _ _ _ (vertex 0) b).
  - cbn [bind]. rewrite (py_index_last [] Hne). cbn [bind].
    replace (py_index (last b []) 1) with (Ok (vertex 1 (last b [])))
      by (symmetry; apply (@py_index_vertex 1); lia).
    reflexivity.
  - intros pair Hp. apply (@py_index_vertex 0). rewrite (Hrows pair Hp). lia.
Qed.

Lemma edges_entries (b : array2) (N : nat) :
  shape2 b N 2 -> (1 <= N)%nat ->
  length (map (vertex 0) b ++ [vertex 1 (last b [])]) = (N + 1)%nat
  /\ (forall k, (k < N)%nat ->
        nth k (map (vertex 0) b ++ [vertex 1 (last b [])]) 0%float =
        vertex 0 (nth k b []))
  /\ nth N (map (vertex 0) b ++ [vertex 1 (last b [])]) 0%float =
     vertex 1 (nth (N - 1) b []).
Proof.
  intros [Hlen Hrows] HN.
  assert (Hne : b <> []) by (destruct b; [simpl in Hlen; lia | discriminate]).
  split; [| split].
  - rewrite length_app, length_map. simpl. lia.
  - intros k Hk. rewrite app_nth1 by (rewrite length_map; lia).
    apply nth_map_default. lia.
  - rewrite app_nth2 by (rewrite length_map; lia).
    rewrite length_map, Hlen, Nat.sub_diag. cbn [nth].
    rewrite (last_nth_pred [] Hne). now rewrite Hlen.
Qed.

(** C5: for N latitude cells and M longitude cells, each with a pair of
    bounds, mk_outgrid returns edge vectors of N + 1 and M + 1 entries: the
    lower bound (index 0) of every cell, then the upper bound (index 1) of the
    last cell. *)
Theorem mk_outgrid_edges (ds : LatLonGrid.t) (N M : nat) :
  shape2 (LatLonGrid.lat_bnds ds) N 2 -> (1 <= N)%nat ->
  shape2 (LatLonGrid.lon_bnds ds) M 2 -> (1 <= M)%nat ->
  exists g,
    mk_outgrid ds = Ok g
    /\ o_lat g = LatLonGrid.lat ds /\ o_lon g = LatLonGrid.lon ds
    /\ length (o_lat_b g) = (N + 1)%nat
    /\ (forall k, (k < N)%nat ->
          nth k (o_lat_b g) 0%float = vertex 0 (nth k (LatLonGrid.lat_bnds ds) []))
    /\ nth N (o_lat_b g) 0%float = vertex 1 (nth (N - 1) (LatLonGrid.lat_bnds ds) [])
    /\ length (o_lon_b g) = (M + 1)%nat
    /\ (forall k, (k < M)%nat ->
          nth k (o_lon_b g) 0%float = vertex 0 (nth k (LatLonGrid.lon_bnds ds) []))
    /\ nth M (o_lon_b g) 0%float = vertex 1 (nth (M - 1) (LatLonGrid.lon_bnds ds) []).
Proof.
  intros Hlat HN Hlon HM. unfold mk_outgrid. cbv zeta.
  rewrite (concat_bnds_ok Hlat HN). cbn [bind].
  rewrite (concat_bnds_ok Hlon HM). cbn [bind].
  eexists. split; [reflexivity |]. cbn [o_lat o_lon o_lat_b o_lon_b].
  destruct (edges_entries Hlat HN) as [A1 [A2 A3]].
  destruct (edges_entries Hlon HM) as [B1 [B2 B3]].
  repeat (split; [assumption || reflexivity |]). assumption.
Qed.

Lemma target_3x2_shapes :
  shape2 (LatLonGrid.lat_bnds target_3x2) 3 2 /\ shape2 (LatLonGrid.lon_bnds target_3x2) 2 2.
Proof. split; (split; [reflexivity | repeat constructor]). Qed.

Lemma mk_outgrid_edges_witness :
  exists g,
    mk_outgrid target_3x2 = Ok g
    /\ o_lat g = [-60; 0; 60]%float /\ o_lon g = [90; 270]%float
    /\ length (o_lat_b g) = 4%nat
    /\ (forall k, (k < 3)%nat ->
          nth k (o_lat_b g) 0%float =
          vertex 0 (nth k [[-90; -30]; [-30; 30]; [30; 90]]%float []))
    /\ nth 3 (o_lat_b g) 0%float = 90%float
    /\ length (o_lon_b g) = 3%nat
    /\ (forall k, (k < 2)%nat ->
          nth k (o_lon_b g) 0%float = vertex 0 (nth k [[0; 180]; [180; 360]]%float []))
    /\ nth 2 (o_lon_b g) 0%float = 360%float.
Proof.
  apply (@mk_outgrid_edges target_3x2 3 2).
  - exact (proj1 target_3x2_shapes).
  - lia.
  - exact (proj2 target_3x2_shapes).
  - lia.
Defined.

(** C6 as stated fails: bounds that are not strictly ordered are accepted. *)
Lemma mk_outgrid_accepts_unordered_bounds :
  strictly_ordered (LatLonGrid.lat_bnds target_unordered) = false
  /\ strictly_ordered (LatLonGrid.lon_bnds target_unordered) = false
  /\ mk_outgrid target_unordered =
     Ok (mkOutGrid [90; 270] [5; 5] [180; 90; 360] [10; 0; 10])%float
  /\ ~ fails (mk_outgrid target_unordered).
Proof.
  split; [reflexivity |]. split; [reflexivity |]. split; [reflexivity |].
  apply succeeds_not_fails. eexists. reflexivity.
Qed.

Lemma py_index_map (A B : Type) (f : A -> B) (l : list A) (k : Z) :
  py_index (map f l) k = map_result f (py_index l k).
Proof.
  unfold py_index. rewrite length_map.
  destruct ((0 <=? _) && _)%Z; [| reflexivity].
  rewrite nth_error_map. now destruct (nth_error l _).
Qed.

Lemma isel_bnds_map (f : float -> float) (k : Z) (b : array2) :
  isel_bnds k (map (map f) b) = map_result (map f) (isel_bnds k b).
Proof.
  unfold isel_bnds. induction b as [| pair t IH]; [reflexivity |].
  cbn [map mapM]. rewrite py_index_map, IH.
  destruct (py_index pair k); [| reflexivity].
  cbn [map_result bind]. now destruct (mapM _ t).
Qed.

Lemma concat_bnds_map (f : float -> float) (b : array2) :
  concat_bnds (map (map f) b) = map_result (map f) (concat_bnds b).
Proof.
  unfold concat_bnds, isel_cell_bnds. rewrite isel_bnds_map, py_index_map.
  destruct (isel_bnds 0 b) as [lower |]; [| reflexivity]. cbn [map_result bind].
  destruct (py_index b (-1)) as [pair |]; [| reflexivity]. cbn [map_result bind].
  rewrite py_index_map. destruct (py_index pair 1) as [upper |]; [| reflexivity].
  cbn [map_result bind]. now rewrite map_app.
Qed.

Lemma concat_bnds_value (b : array2) (edges : array1) :
  concat_bnds b = Ok edges -> edges = map (vertex 0) b ++ [vertex 1 (last b [])].
Proof.
  unfold concat_bnds, isel_bnds, isel_cell_bnds. intros H.
  destruct (mapM (fun pair => py_index pair 0) b) as [lower |] eqn:E0;
    [cbn [bind] in H | discriminate].
  destruct (py_index b (-1)) as [pair |] eqn:E1; [cbn [bind] in H | discriminate].
  destruct (py_index pair 1) as [upper |] eqn:E2; [| discriminate].
  injection H as <-.
  assert (Hne : b <> []) by (intros ->; discriminate).
  rewrite (py_index_last [] Hne) in E1. injection E1 as <-.
  assert (Hlow : forall p, In p b -> py_index p 0 = Ok (vertex 0 p)).
  { intros p Hp. destruct (mapM_ok_inv _ _ E0 p Hp) as [x Hx].
    apply (@py_index_vertex 0). apply py_index_ok_inv in Hx. lia. }
  rewrite (mapM_ok _ _ _ Hlow) in E0. injection E0 as <-.
  replace (py_index (last b []) 1) with (Ok (vertex 1 (last b []))) in E2
    by (symmetry; apply (@py_index_vertex 1); apply py_index_ok_inv in E2; lia).
  now injection E2 as <-.
Qed.

(** C6, as the code has it: mk_outgrid makes no check of the order of the
    bounds.  Replacing every bound [b] by [f b], for any function [f] on the
    values (one that reverses their order, for instance), leaves the outcome
    as it is: a call that returns still returns, with [f] applied to the
    edges, and a call that raises still raises the same exception.  Whenever
    mk_outgrid returns, its edges are the bounds as stored, ordered or not:
    the bound 0 of every cell, then the bound 1 of the last cell. *)
Theorem mk_outgrid_ignores_order :
  (forall f ds, mk_outgrid (map_bnds f ds) = map_result (map_edges f) (mk_outgrid ds))
  /\ (forall f ds, succeeds (mk_outgrid (map_bnds f ds)) <-> succeeds (mk_outgrid ds))
  /\ (forall ds g,
        mk_outgrid ds = Ok g ->
        o_lat_b g = map (vertex 0) (LatLonGrid.lat_bnds ds)
                    ++ [vertex 1 (last (LatLonGrid.lat_bnds ds) [])]
        /\ o_lon_b g = map (vertex 0) (LatLonGrid.lon_bnds ds)
                       ++ [vertex 1 (last (LatLonGrid.lon_bnds ds) [])]).
Proof.
  assert (Hmap : forall f ds,
             mk_outgrid (map_bnds f ds) = map_result (map_edges f) (mk_outgrid ds)).
  { intros f ds. unfold mk_outgrid, map_bnds. cbv zeta.
    cbn [LatLonGrid.lat LatLonGrid.lon LatLonGrid.lat_bnds LatLonGrid.lon_bnds].
    rewrite !concat_bnds_map.
    destruct (concat_bnds (LatLonGrid.lat_bnds ds)); [| reflexivity].
    cbn [map_result bind].
    now destruct (concat_bnds (LatLonGrid.lon_bnds ds)). }
  split; [exact Hmap |]. split.
  - intros f ds. rewrite Hmap. split.
    + intros [g H]. destruct (mk_outgrid ds) as [g0 |]; [now exists g0 | discriminate].
    + intros [g ->]. eexists. reflexivity.
  - intros ds g. unfold mk_outgrid. cbv zeta.
    destruct (concat_bnds (LatLonGrid.lat_bnds ds)) as [lat_b |] eqn:E1;
      [cbn [bind] | discriminate].
    destruct (concat_bnds (LatLonGrid.lon_bnds ds)) as [lon_b |] eqn:E2;
      [cbn [bind] | discriminate].
    intros [= <-]. cbn [o_lat_b o_lon_b].
    split; now apply concat_bnds_value.
Qed.

Lemma mk_outgrid_ignores_order_witness :
  strictly_ordered (LatLonGrid.lat_bnds target_3x2) = true
  /\ strictly_ordered (LatLonGrid.lat_bnds (map_bnds PrimFloat.opp target_3x2)) = false
  /\ mk_outgrid (map_bnds PrimFloat.opp target_3x2)
     = Ok (mkOutGrid [90; 270] [-60; 0; 60] [-0; -180; -360] [90; 30; -30; -90])%float
  /\ exists g,
       mk_outgrid target_unordered = Ok g
       /\ o_lat_b g = [10; 0; 10]%float /\ o_lon_b g = [180; 90; 360]%float.
Proof.
  split; [reflexivity |]. split; [reflexivity |]. split.
  - rewrite (proj1 mk_outgrid_ignores_order PrimFloat.opp target_3x2). reflexivity.
  - eexists. split; [reflexivity |].
    apply (proj2 (proj2 mk_outgrid_ignores_order) target_unordered). reflexivity.
Defined.

(** ** Claims on make_regridder *)

Lemma modelname_not_global : lookup "modelname" module_globals = None.
Proof. reflexivity. Qed.

(** With [modelname] bound by hand the model does reach the constructor:
    the NameError below comes from the lookup, not from the model. *)
Lemma make_regridder_when_modelname_bound :
  make_regridder file_regridder patched_globals some_builtins
    grid_2x2 (mkOutGrid [] [] [] []) "/tmp/" "conservative" false []
  = (Ok "/tmp/model_to_grid_conservative.nc",
     [ mkCall
         (mkGeometry (plain [[5; 6]; [7; 8]]%float) (plain [[1; 2]; [3; 4]]%float)
            (plain [[0; 10; 11]; [20; 30; 31]; [23; 33; 32]]%float)
            (plain [[0; 10; 11]; [20; 30; 31]; [23; -90; 90]]%float))
         (mkOutGrid [] [] [] []) "conservative"
         "/tmp/model_to_grid_conservative.nc" false ]).
Proof. reflexivity. Qed.

(** C8: [modelname] is bound neither in make_regridder nor at module level,
    so with builtins that do not bind it either (Python's do not), every call
    raises NameError for it, and the list of constructed regridders is left as
    it was. *)
Theorem make_regridder_raises_NameError (Regridder : Type)
    (xe_Regridder : RegridderCall -> result Regridder) (builtins : namespace)
    (ds : ModelGrid.t) (outgrid : OutGrid) (grid_weight_path regrid_mode : string)
    (reuse_weights : bool) (w : world) :
  lookup "modelname" builtins = None ->
  lookup "modelname" module_globals = None
  /\ make_regridder xe_Regridder module_globals builtins
       ds outgrid grid_weight_path regrid_mode reuse_weights w
     = (Raise (NameError "modelname"), w)
  /\ forall r w',
       make_regridder xe_Regridder module_globals builtins
         ds outgrid grid_weight_path regrid_mode reuse_weights w <> (Ok r, w').
Proof.
  intros Hb.
  assert (E : make_regridder xe_Regridder module_globals builtins
                ds outgrid grid_weight_path regrid_mode reuse_weights w
              = (Raise (NameError "modelname"), w)).
  { unfold make_regridder, load_global.
    change (lookup "make_bounds" module_globals) with (Some (PyObj "make_bounds")).
    change (lookup "modelname" module_globals) with (@None pyval).
    rewrite Hb. reflexivity. }
  split; [reflexivity |]. split; [exact E |].
  intros r w'. rewrite E. discriminate.
Qed.

Lemma make_regridder_raises_NameError_witness :
  make_regridder file_regridder module_globals some_builtins
    grid_2x2 (mkOutGrid [] [] [] []) "/tmp/" "conservative" false []
  = (Raise (NameError "modelname"), []).
Proof.
  apply (@make_regridder_raises_NameError string file_regridder some_builtins).
  reflexivity.
Defined.

(** ** Claims on consistent_naming *)

(** consistent_naming at work: raw names are replaced, and a variable that
    would take the name of another variable raises. *)
Example consistent_naming_raw_ocean :
  consistent_naming raw_ocean
  = Ok (X.mk [ X.mkVar "lat" ["j"; "i"] true; X.mkVar "lon" ["j"; "i"] true;
               X.mkVar "lev" ["lev"] true; X.mkVar "temp" ["lev"; "j"; "i"] false ]
          [("long_name", "temperature")]).
Proof. reflexivity. Qed.

Example consistent_naming_conflict :
  consistent_naming (X.mk [X.mkVar "x" ["x"] true; X.mkVar "i" ["x"] false] [])
  = Raise (ValueError "the new name conflicts").
Proof. reflexivity. Qed.

(** A dimension renamed to the name of another dimension is merged with it. *)
Example consistent_naming_merges_dimensions :
  consistent_naming (X.mk [X.mkVar "u" ["x"; "i"] false; X.mkVar "v" ["i"] false] [])
  = Ok (X.mk [X.mkVar "u" ["i"; "i"] false; X.mkVar "v" ["i"] false] []).
Proof. reflexivity. Qed.

Lemma mem_map_renamed_other (old new n : string) (l : list string) :
  n <> old -> n <> new -> mem n (map (renamed old new) l) = mem n l.
Proof.
  intros Ho Hn. induction l as [| x t IH]; [reflexivity |].
  unfold mem in *. cbn [map existsb]. rewrite IH. f_equal.
  unfold renamed. destruct (String.eqb_spec x old) as [-> | Hx].
  - destruct (String.eqb_spec n new); [contradiction |].
    destruct (String.eqb_spec n old); [contradiction | reflexivity].
  - reflexivity.
Qed.

Lemma mem_map_renamed_old (old new : string) (l : list string) :
  old <> new -> mem old (map (renamed old new) l) = false.
Proof.
  intros Hne. induction l as [| x t IH]; [reflexivity |].
  unfold mem in *. cbn [map existsb]. rewrite IH, orb_false_r.
  unfold renamed. destruct (String.eqb_spec x old) as [-> | Hx].
  - now apply String.eqb_neq.
  - apply String.eqb_neq. congruence.
Qed.

Lemma rename_names (old new : string) (ds ds' : X.t) :
  rename old new ds = Ok ds' ->
  coord_names ds' = map (renamed old new) (coord_names ds)
  /\ dim_names ds' = map (renamed old new) (dim_names ds).
Proof.
  unfold rename.
  destruct (negb _); [discriminate |].
  destruct (_ && _); [discriminate |].
  intros [= <-]. unfold coord_names, dim_names. cbn [X.variables].
  split.
  - induction (X.variables ds) as [| v t IH]; [reflexivity |].
    cbn [map filter rename_var X.is_coord].
    destruct (X.is_coord v); cbn [map X.name]; now rewrite IH.
  - induction (X.variables ds) as [| v t IH]; [reflexivity |].
    cbn [map flat_map rename_var X.dims]. now rewrite map_app, IH.
Qed.

(** A step of consistent_naming keeps the names it does not mention. *)
Lemma step_keeps (test : bool) (old new n : string) (ds ds' : X.t) :
  (if test then rename old new ds else Ok ds) = Ok ds' ->
  n <> old -> n <> new ->
  mem n (coord_names ds') = mem n (coord_names ds)
  /\ mem n (dim_names ds') = mem n (dim_names ds).
Proof.
  destruct test.
  - intros H Ho Hn. destruct (rename_names _ _ _ H) as [-> ->].
    now rewrite !mem_map_renamed_other.
  - intros [= <-]. auto.
Qed.

(** A step that fires on a dimension leaves no such dimension. *)
Lemma step_clears_dim (old new : string) (ds ds' : X.t) :
  old <> new ->
  (if mem old (dim_names ds) then rename old new ds else Ok ds) = Ok ds' ->
  mem old (dim_names ds') = false.
Proof.
  intros Hne. destruct (mem old (dim_names ds)) eqn:E.
  - intros H. destruct (rename_names _ _ _ H) as [_ ->].
    now apply mem_map_renamed_old.
  - now intros [= <-].
Qed.

(** A step that fires on a coordinate leaves its test false. *)
Lemma step_settles_coord (old new : string) (ds ds' : X.t) :
  old <> new ->
  (if mem old (coord_names ds) && negb (mem new (coord_names ds))
   then rename old new ds else Ok ds) = Ok ds' ->
  mem old (coord_names ds') && negb (mem new (coord_names ds')) = false.
Proof.
  intros Hne. destruct (mem old (coord_names ds) && _) eqn:E.
  - intros H. destruct (rename_names _ _ _ H) as [-> _].
    now rewrite mem_map_renamed_old.
  - now intros [= <-].
Qed.

Ltac keep_through n E :=
  rewrite ?(proj1 (@step_keeps _ _ _ n _ _ E ltac:(discriminate) ltac:(discriminate))),
          ?(proj2 (@step_keeps _ _ _ n _ _ E ltac:(discriminate) ltac:(discriminate))).

Lemma settled_fixed (ds : X.t) : settled ds = true -> consistent_naming ds = Ok ds.
Proof.
  unfold settled. intros H.
  repeat (apply andb_prop in H; destruct H as [H ?]).
  repeat match goal with
         | H : negb _ = true |- _ => apply negb_true_iff in H
         end.
  unfold consistent_naming.
  repeat match goal with
         | H : ?b = false |- context [if ?b then _ else _] => rewrite H; cbn [bind]
         end.
  reflexivity.
Qed.

Lemma canonical_settled (ds : X.t) : canonical ds = true -> settled ds = true.
Proof.
  unfold canonical, settled. intros H.
  repeat (apply andb_prop in H; destruct H as [H ?]).
  repeat match goal with
         | H : negb _ = true |- _ => apply negb_true_iff in H
         end.
  repeat match goal with
         | H : ?b = false |- _ => rewrite H; clear H
         end.
  reflexivity.
Qed.

Lemma consistent_naming_settles (ds ds' : X.t) :
  consistent_naming ds = Ok ds' -> settled ds' = true.
Proof.
  unfold consistent_naming.
  destruct (if mem "latitude" (coord_names ds) && _ then _ else _) as [d1 |] eqn:E1;
    [cbn [bind] | discriminate].
  destruct (if mem "longitude" (coord_names d1) && _ then _ else _) as [d2 |] eqn:E2;
    [cbn [bind] | discriminate].
  destruct (if mem "region" (dim_names d2) then _ else _) as [d3 |] eqn:E3;
    [cbn [bind] | discriminate].
  destruct (if mem "x" (dim_names d3) then _ else _) as [d4 |] eqn:E4;
    [cbn [bind] | discriminate].
  destruct (if mem "y" (dim_names d4) then _ else _) as [d5 |] eqn:E5;
    [cbn [bind] | discriminate].
  destruct (if mem "depth" (dim_names d5) then _ else _) as [d6 |] eqn:E6;
    [cbn [bind] | discriminate].
  destruct (if mem "bounds" (dim_names d6) then _ else _) as [d7 |] eqn:E7;
    [cbn [bind] | discriminate].
  intros [= <-].
  pose proof (@step_settles_coord "latitude" "lat" _ _ ltac:(discriminate) E1) as S1.
  pose proof (@step_settles_coord "longitude" "lon" _ _ ltac:(discriminate) E2) as S2.
  pose proof (@step_clears_dim "region" "basin" _ _ ltac:(discriminate) E3) as S3.
  pose proof (@step_clears_dim "x" "i" _ _ ltac:(discriminate) E4) as S4.
  pose proof (@step_clears_dim "y" "j" _ _ ltac:(discriminate) E5) as S5.
  pose proof (@step_clears_dim "depth" "lev" _ _ ltac:(discriminate) E6) as S6.
  pose proof (@step_clears_dim "bounds" "bnds" _ _ ltac:(discriminate) E7) as S7.
  unfold settled.
  assert (T1 : mem "latitude" (coord_names d7) && negb (mem "lat" (coord_names d7)) = false).
  { keep_through "latitude" E7. keep_through "lat" E7.
    keep_through "latitude" E6. keep_through "lat" E6.
    keep_through "latitude" E5. keep_through "lat" E5.
    keep_through "latitude" E4. keep_through "lat" E4.
    keep_through "latitude" E3. keep_through "lat" E3.
    keep_through "latitude" E2. keep_through "lat" E2. exact S1. }
  assert (T2 : mem "longitude" (coord_names d7) && negb (mem "lon" (coord_names d7)) = false).
  { keep_through "longitude" E7. keep_through "lon" E7.
    keep_through "longitude" E6. keep_through "lon" E6.
    keep_through "longitude" E5. keep_through "lon" E5.
    keep_through "longitude" E4. keep_through "lon" E4.
    keep_through "longitude" E3. keep_through "lon" E3. exact S2. }
  assert (T3 : mem "region" (dim_names d7) = false).
  { keep_through "region" E7. keep_through "region" E6. keep_through "region" E5.
    keep_through "region" E4. exact S3. }
  assert (T4 : mem "x" (dim_names d7) = false).
  { keep_through "x" E7. keep_through "x" E6. keep_through "x" E5. exact S4. }
  assert (T5 : mem "y" (dim_names d7) = false).
  { keep_through "y" E7. keep_through "y" E6. exact S5. }
  assert (T6 : mem "depth" (dim_names d7) = false).
  { keep_through "depth" E7. exact S6. }
  rewrite T1, T2, T3, T4, T5, T6, S7. reflexivity.
Qed.

(** C9: consistent_naming applied to its own result changes nothing, and a
    call that raises raises the same when repeated; a dataset in which none
    of the replaced names is in use is returned as it is. *)
Theorem consistent_naming_idempotent :
  (forall ds, (ds' <- consistent_naming ds ;; consistent_naming ds') = consistent_naming ds)
  /\ (forall ds ds', consistent_naming ds = Ok ds' -> consistent_naming ds' = Ok ds')
  /\ (forall ds, canonical ds = true -> consistent_naming ds = Ok ds).
Proof.
  split; [| split].
  - intros ds. destruct (consistent_naming ds) as [ds' | e] eqn:E; cbn [bind];
      [| reflexivity].
    apply settled_fixed. exact (consistent_naming_settles _ E).
  - intros ds ds' E. apply settled_fixed. exact (consistent_naming_settles _ E).
  - intros ds H. apply settled_fixed. now apply canonical_settled.
Qed.

Lemma consistent_naming_idempotent_witness :
  consistent_naming cmor_ocean = Ok cmor_ocean
  /\ exists ds', consistent_naming raw_ocean = Ok ds'
                 /\ ds' <> raw_ocean
                 /\ consistent_naming ds' = Ok ds'.
Proof.
  destruct consistent_naming_idempotent as [_ [Hfix Hcanon]].
  split.
  - apply (Hcanon cmor_ocean). reflexivity.
  - eexists. split; [reflexivity |]. split; [discriminate |].
    apply (Hfix raw_ocean). reflexivity.
Defined.

(** ** Claims on volumeavg_ocn *)

Section VolumeAverage.
Context {xr : Xarray}.

Lemma copy_attr_unbound (key : string) (value : string -> string) (ds : X.t) :
  copy_attr key value ds None = Ok None
  \/ copy_attr key value ds None = Raise (UnboundLocalError "ds_out").
Proof. unfold copy_attr. destruct (get_attr key (X.attrs ds)); cbn; auto. Qed.

(** Without a sigma coordinate, the statements after the weights raise
    UnboundLocalError whatever the attributes are. *)
Lemma volumeavg_ocn_after_weights (ds dp : X.t) (pweight : option X.t) (cmor : bool)
    (w : X.t) :
  mem "sigma" (coord_names ds) = false ->
  area_weights pweight cmor = Ok w ->
  volumeavg_ocn ds dp pweight cmor = Raise (UnboundLocalError "ds_out").
Proof.
  intros Hs Hw. unfold volumeavg_ocn. rewrite Hw. cbn [bind]. rewrite Hs.
  cbn [bind fst snd].
  destruct (copy_attr_unbound "long_name" (fun v => ("Volume averaged " ++ v)%string) ds)
    as [-> | ->]; cbn [bind]; [| reflexivity].
  destruct (copy_attr_unbound "units" (fun v => v) ds) as [-> | ->]; cbn [bind];
    [| reflexivity].
  destruct (copy_attr_unbound "standard_name" (fun v => v) ds) as [-> | ->]; cbn [bind];
    reflexivity.
Qed.

(** C10, as the code has it: volumeavg_ocn can only return a value when
    sigma is among the coordinates of [ds].  Without it every call fails:
    with UnboundLocalError for [ds_out] once the area weights are there
    (passed in, or loaded by get_areacello), and with the exception of
    get_areacello when loading them fails. *)
Theorem volumeavg_ocn_needs_sigma (ds dp : X.t) (pweight : option X.t) (cmor : bool) :
  (forall out, volumeavg_ocn ds dp pweight cmor = Ok out ->
     mem "sigma" (coord_names ds) = true)
  /\ (mem "sigma" (coord_names ds) = false ->
      fails (volumeavg_ocn ds dp pweight cmor)
      /\ (forall w, area_weights pweight cmor = Ok w ->
            volumeavg_ocn ds dp pweight cmor = Raise (UnboundLocalError "ds_out"))
      /\ (forall w, pweight = Some w ->
            volumeavg_ocn ds dp pweight cmor = Raise (UnboundLocalError "ds_out"))
      /\ (forall e, area_weights pweight cmor = Raise e ->
            volumeavg_ocn ds dp pweight cmor = Raise e)).
Proof.
  assert (Hfail : forall e, area_weights pweight cmor = Raise e ->
                    volumeavg_ocn ds dp pweight cmor = Raise e).
  { intros e He. unfold volumeavg_ocn. rewrite He. reflexivity. }
  assert (Hno : mem "sigma" (coord_names ds) = false ->
                fails (volumeavg_ocn ds dp pweight cmor)).
  { intros Hs. destruct (area_weights pweight cmor) as [w | e] eqn:Ew.
    - exists (UnboundLocalError "ds_out"). now apply volumeavg_ocn_after_weights with w.
    - exists e. now apply Hfail. }
  split.
  - intros out Hout. destruct (mem "sigma" (coord_names ds)) eqn:Hs; [reflexivity |].
    destruct (Hno eq_refl) as [e He]. rewrite He in Hout. discriminate.
  - intros Hs. split; [now apply Hno |]. split; [| split].
    + intros w Hw. now apply volumeavg_ocn_after_weights with w.
    + intros w ->. now apply volumeavg_ocn_after_weights with w.
    + exact Hfail.
Qed.

End VolumeAverage.

Lemma volumeavg_ocn_needs_sigma_witness :
  @volumeavg_ocn with_files cmor_ocean cmor_ocean None true
  = Raise (UnboundLocalError "ds_out")
  /\ @volumeavg_ocn no_files cmor_ocean cmor_ocean (Some areacello) true
     = Raise (UnboundLocalError "ds_out")
  /\ mem "sigma" (coord_names sigma_ocean) = true.
Proof.
  split; [| split].
  - destruct (proj2 (@volumeavg_ocn_needs_sigma with_files cmor_ocean cmor_ocean None true)
                eq_refl) as [_ [H _]].
    apply (H areacello). reflexivity.
  - destruct (proj2 (@volumeavg_ocn_needs_sigma no_files cmor_ocean cmor_ocean
                       (Some areacello) true) eq_refl) as [_ [_ [H _]]].
    apply (H areacello). reflexivity.
  - apply (proj1 (@volumeavg_ocn_needs_sigma with_files sigma_ocean sigma_ocean None true)
             areacello).
    reflexivity.
Defined.

(** C10 as stated fails: where the area files cannot be opened, a call
    without weights on a field without sigma raises the FileNotFoundError of
    get_areacello, not UnboundLocalError. *)
Lemma volumeavg_ocn_missing_files :
  mem "sigma" (coord_names cmor_ocean) = false
  /\ @volumeavg_ocn no_files cmor_ocean cmor_ocean None true
     = Raise (FileNotFoundError areacello_path)
  /\ @volumeavg_ocn no_files cmor_ocean cmor_ocean None true
     <> Raise (UnboundLocalError "ds_out")
  /\ @volumeavg_ocn no_files cmor_ocean cmor_ocean None false
     = Raise (FileNotFoundError grid_path).
Proof.
  split; [reflexivity |]. split; [reflexivity |]. split; [| reflexivity].
  assert (E : @volumeavg_ocn no_files cmor_ocean cmor_ocean None true
              = Raise (FileNotFoundError areacello_path)) by reflexivity.
  rewrite E. discriminate.
Qed.

(** * Further properties *)

(** ** make_bounds *)

Lemma py_slice_to_firstn (A : Type) (l : list A) (n : nat) :
  (n <= length l)%nat -> py_slice_to (Z.of_nat n) l = firstn n l.
Proof.
  intros H. unfold py_slice_to.
  destruct (Z.ltb_spec (Z.of_nat n) 0) as [Hneg | _]; [lia |].
  rewrite Z.min_l by lia. now rewrite Nat2Z.id.
Qed.

Lemma slice_all_but_last (A : Type) (l : list A) (R : nat) :
  length l = R -> (1 <= R)%nat ->
  py_slice_to (Z.of_nat R - 1) l = removelast l /\ py_slice_to (Z.of_nat R) l = l.
Proof.
  intros Hlen HR. split.
  - replace (Z.of_nat R - 1)%Z with (Z.of_nat (R - 1)) by lia.
    rewrite py_slice_to_firstn by lia.
    rewrite removelast_firstn_len, Hlen. f_equal. lia.
  - apply py_slice_to_all. lia.
Qed.

Lemma polar_clamp_removelast (a : array2) :
  polar_clamp (removelast a) = removelast (polar_clamp a).
Proof.
  rewrite !polar_clamp_map, !removelast_firstn_len, length_map. apply eq_sym, firstn_map.
Qed.

(** X1: for NorESM2-LM and NorESM2-MM, the geometry built for sea ice is the
    geometry built otherwise with the last row of every array removed. *)
Theorem make_bounds_sea_ice_removes_last_row (modelname : string) (ds : ModelGrid.t)
    (R C : nat) :
  In modelname trimmed_models -> vertices_ok ds R C -> centres_ok ds R C ->
  exists g_ice g_all,
    make_bounds modelname ds true = Ok g_ice
    /\ make_bounds modelname ds false = Ok g_all
    /\ values (g_lat g_ice) = removelast (values (g_lat g_all))
    /\ values (g_lon g_ice) = removelast (values (g_lon g_all))
    /\ values (g_lat_b g_ice) = removelast (values (g_lat_b g_all))
    /\ values (g_lon_b g_ice) = removelast (values (g_lon_b g_all)).
Proof.
  intros Hm Hv [[Hlat _] [Hlon _]].
  destruct (make_bounds_returns modelname true Hv) as [gi [Ei [Ai [Bi [Ci Di]]]]].
  destruct (make_bounds_returns modelname false Hv) as [ga [Ea [Aa [Ba [Ca Da]]]]].
  exists gi, ga. split; [exact Ei |]. split; [exact Ea |].
  rewrite Hlat in *.
  destruct (effective_ny_known (Z.of_nat R) Hm) as [Et Ef]. rewrite Et in *. rewrite Ef in *.
  destruct Hv as [HR HC Hvlat Hvlon _].
  pose proof (proj1 (corner_mesh_spec_shape Hvlat HR)) as Lvlat.
  pose proof (proj1 (corner_mesh_spec_shape Hvlon HR)) as Lvlon.
  replace (Z.of_nat R - 1 + 1)%Z with (Z.of_nat (R + 1) - 1)%Z in * by lia.
  replace (Z.of_nat R + 1)%Z with (Z.of_nat (R + 1)) in * by lia.
  destruct (@slice_all_but_last _ _ _ Hlat HR) as [L1 L2].
  destruct (@slice_all_but_last _ _ _ Hlon HR) as [M1 M2].
  destruct (@slice_all_but_last _ _ (R + 1) Lvlat ltac:(lia)) as [P1 P2].
  destruct (@slice_all_but_last _ _ (R + 1) Lvlon ltac:(lia)) as [Q1 Q2].
  rewrite Ai, Aa, Bi, Ba, Ci, Ca, Di, Da, L1, L2, M1, M2, P1, P2, Q1, Q2.
  rewrite polar_clamp_removelast. auto.
Qed.

Lemma make_bounds_sea_ice_removes_last_row_witness :
  exists g_ice g_all,
    make_bounds "NorESM2-LM" grid_2x2 true = Ok g_ice
    /\ make_bounds "NorESM2-LM" grid_2x2 false = Ok g_all
    /\ values (g_lat g_ice) = removelast (values (g_lat g_all))
    /\ values (g_lon g_ice) = removelast (values (g_lon g_all))
    /\ values (g_lat_b g_ice) = removelast (values (g_lat_b g_all))
    /\ values (g_lon_b g_ice) = removelast (values (g_lon_b g_all)).
Proof.
  apply (@make_bounds_sea_ice_removes_last_row "NorESM2-LM" grid_2x2 2 2).
  - left. reflexivity.
  - exact grid_2x2_vertices_ok.
  - exact grid_2x2_centres_ok.
Defined.

Lemma mapM_fails (A B : Type) (f : A -> result B) (l : list A) (x : A) :
  In x l -> fails (f x) -> fails (mapM f l).
Proof.
  intros Hx Hf. destruct (mapM f l) as [ys | e] eqn:E; [| now exists e].
  destruct (mapM_ok_inv _ _ E x Hx) as [y Hy]. destruct Hf as [e He]. congruence.
Qed.

Lemma isel_vertices_raises (k : Z) (v : array3) (e : exception) :
  isel_vertices k v = Raise e -> e = IndexError.
Proof.
  intros H. destruct (mapM_raises _ _ H) as [row [_ Hrow]].
  destruct (mapM_raises _ _ Hrow) as [cell0 [_ Hc]]. exact (py_index_raises _ _ Hc).
Qed.

Lemma isel_vertices_i_raises (k c : Z) (v : array3) (e : exception) :
  isel_vertices_i k c v = Raise e -> e = IndexError.
Proof.
  intros H. destruct (mapM_raises _ _ H) as [row [_ Hrow]].
  destruct (py_index row c) as [cell0 |] eqn:E; cbn [bind] in Hrow.
  - exact (py_index_raises _ _ Hrow).
  - injection Hrow as <-. exact (py_index_raises _ _ E).
Qed.

Lemma corner_mesh_empty (v : array3) :
  v = [] \/ In [] v -> corner_mesh v = Raise IndexError.
Proof.
  intros [-> | Hin]; [reflexivity |].
  unfold corner_mesh.
  destruct (isel_vertices 0 v) as [v0 | e] eqn:E0; cbn [bind].
  - assert (Hf : fails (isel_vertices_i 1 (-1) v)).
    { apply mapM_fails with (x := []); [exact Hin |]. exists IndexError. reflexivity. }
    destruct Hf as [e He]. rewrite He. cbn [bind].
    now rewrite (isel_vertices_i_raises _ _ _ He).
  - now rewrite (isel_vertices_raises _ _ E0).
Qed.

(** X2: a grid without rows, or with a row without cells, makes make_bounds
    raise IndexError, whatever the model and the flag. *)
Theorem make_bounds_empty_grid_raises (modelname : string) (ds : ModelGrid.t)
    (seaice : bool) :
  labels_ok ds = true ->
  values (ModelGrid.vertices_longitude ds) = []
  \/ In [] (values (ModelGrid.vertices_longitude ds)) ->
  make_bounds modelname ds seaice = Raise IndexError.
Proof.
  intros Hlab Hempty. unfold make_bounds. cbv zeta.
  set (ny := effective_ny modelname seaice _).
  destruct (@strip_labels_ok _ (isel_j_slice ny (ModelGrid.lat ds))
              (mem "lat" (coords (ModelGrid.lon ds)))) as [la [Ela _]].
  { intros E. apply (labels_ok_centres _ Hlab E). }
  destruct (@strip_labels_ok _ (isel_j_slice ny (ModelGrid.lon ds))
              (mem "lat" (coords (ModelGrid.lon ds)))) as [lo [Elo _]].
  { intros E. apply (labels_ok_centres _ Hlab E). }
  rewrite Ela. cbn [bind]. rewrite Elo. cbn [bind].
  unfold concat_vertices. rewrite (corner_mesh_empty Hempty). reflexivity.
Qed.

Lemma make_bounds_empty_grid_raises_witness :
  make_bounds "NorESM2-MM"
    (ModelGrid.mk (plain [[]; []]) (plain [[]; []]) (plain [[]; []]) (plain [[]; []])) false
  = Raise IndexError.
Proof.
  apply make_bounds_empty_grid_raises; [reflexivity |]. right. left. reflexivity.
Defined.

Lemma clamp_value_idempotent (x : float) : clamp_value (clamp_value x) = clamp_value x.
Proof.
  destruct (PrimFloat.ltb x 90) eqn:Hhi; [destruct (PrimFloat.ltb (-90) x) eqn:Hlo |].
  - assert (E : clamp_value x = x) by (unfold clamp_value; now rewrite Hhi, Hlo).
    rewrite E. exact E.
  - assert (E : clamp_value x = (-90)%float) by (unfold clamp_value; now rewrite Hhi, Hlo).
    rewrite E. reflexivity.
  - assert (E : clamp_value x = 90%float) by (unfold clamp_value; now rewrite Hhi).
    rewrite E. reflexivity.
Qed.

(** X3: the polar clamp is idempotent, and the corner latitudes of a
    returned geometry are left as they are by a second clamp. *)
Theorem polar_clamp_idempotent :
  (forall a, polar_clamp (polar_clamp a) = polar_clamp a)
  /\ (forall modelname ds seaice g,
        make_bounds modelname ds seaice = Ok g ->
        polar_clamp (values (g_lat_b g)) = values (g_lat_b g)).
Proof.
  assert (H : forall a, polar_clamp (polar_clamp a) = polar_clamp a).
  { intros a. rewrite !polar_clamp_map, map_map. apply map_ext. intros row.
    rewrite map_map. apply map_ext. exact clamp_value_idempotent. }
  split; [exact H |].
  intros modelname ds seaice g Hg.
  destruct (make_bounds_clamps _ _ _ Hg) as [mesh [_ ->]]. apply H.
Qed.

Lemma polar_clamp_idempotent_witness :
  polar_clamp [[0; 10; 11]; [20; 30; 31]; [23; -90; 90]]%float
  = [[0; 10; 11]; [20; 30; 31]; [23; -90; 90]]%float.
Proof.
  exact (proj2 polar_clamp_idempotent "NorESM2-LM" grid_2x2 false
           (mkGeometry (plain [[5; 6]; [7; 8]]%float) (plain [[1; 2]; [3; 4]]%float)
              (plain [[0; 10; 11]; [20; 30; 31]; [23; 33; 32]]%float)
              (plain [[0; 10; 11]; [20; 30; 31]; [23; -90; 90]]%float))
           eq_refl).
Defined.

(** X4: make_bounds alters nothing but the corner latitudes: the centres
    returned are the first [ny] rows of the centres it was given (centre
    latitudes are not clamped), and the corner longitudes are the first
    [ny + 1] rows of the longitude mesh. *)
Theorem make_bounds_keeps_centres_and_longitudes (modelname : string)
    (ds : ModelGrid.t) (seaice : bool) (g : Geometry) :
  make_bounds modelname ds seaice = Ok g ->
  values (g_lat g) =
    py_slice_to (effective_ny modelname seaice
                   (Z.of_nat (length (values (ModelGrid.lat ds)))))
      (values (ModelGrid.lat ds))
  /\ values (g_lon g) =
     py_slice_to (effective_ny modelname seaice
                    (Z.of_nat (length (values (ModelGrid.lat ds)))))
       (values (ModelGrid.lon ds))
  /\ exists mesh,
       corner_mesh (values (ModelGrid.vertices_longitude ds)) = Ok mesh
       /\ values (g_lon_b g) =
          py_slice_to (effective_ny modelname seaice
                         (Z.of_nat (length (values (ModelGrid.lat ds)))) + 1) mesh.
Proof.
  unfold make_bounds. cbv zeta. unfold concat_vertices.
  destruct (corner_mesh (values (ModelGrid.vertices_longitude ds))) as [mesh | e] eqn:Em;
    repeat (cbn [bind];
            match goal with
            | |- context [bind ?r _] => destruct r eqn:?; try discriminate
            end);
    cbn [bind]; try discriminate.
  intros [= <-]. cbn [g_lat g_lon g_lon_b values].
  repeat match goal with
         | H : (if _ then drop_lon_lat _ else _) = Ok _ |- _ =>
             rewrite (strip_values _ _ H); clear H
         end.
  split; [reflexivity |]. split; [reflexivity |].
  exists mesh. split; reflexivity.
Qed.

Lemma make_bounds_keeps_centres_and_longitudes_witness :
  exists g,
    make_bounds "NorESM2-LM" grid_2x2 false = Ok g
    /\ values (g_lat g) = [[1; 2]; [3; 4]]%float
    /\ values (g_lon g) = [[5; 6]; [7; 8]]%float.
Proof.
  eexists. split; [reflexivity |].
  destruct (@make_bounds_keeps_centres_and_longitudes "NorESM2-LM" grid_2x2 false _ eq_refl)
    as [H1 [H2 _]].
  split; [exact H1 | exact H2].
Defined.

(** ** mk_outgrid *)

Lemma concat_bnds_succeeds_iff (b : array2) : succeeds (concat_bnds b) <-> bnds_ok b.
Proof.
  unfold concat_bnds, isel_bnds, isel_cell_bnds, bnds_ok. split.
  - intros [edges H].
    destruct (mapM (fun pair => py_index pair 0) b) as [lower |] eqn:E0;
      [cbn [bind] in H | discriminate].
    destruct (py_index b (-1)) as [pair |] eqn:E1; [cbn [bind] in H | discriminate].
    destruct (py_index pair 1) as [upper |] eqn:E2; [| discriminate].
    assert (Hne : b <> []).
    { intros ->. discriminate. }
    split; [exact Hne |]. split.
    + apply Forall_forall. intros p Hp.
      destruct (mapM_ok_inv _ _ E0 p Hp) as [x Hx].
      apply py_index_ok_inv in Hx. lia.
    + rewrite (py_index_last [] Hne) in E1. injection E1 as <-.
      apply py_index_ok_inv in E2. lia.
  - intros [Hne [Hall Hlast]]. rewrite Forall_forall in Hall.
    rewrite (@mapM_ok _ _ _ (vertex 0) b).
    + cbn [bind]. rewrite (py_index_last [] Hne). cbn [bind].
      replace (py_index (last b []) 1) with (Ok (vertex 1 (last b [])))
        by (symmetry; apply (@py_index_vertex 1); lia).
      eexists. reflexivity.
    + intros pair Hp. apply (@py_index_vertex 0). specialize (Hall pair Hp). lia.
Qed.

(** X5: mk_outgrid can only return a grid from bounds arrays that have a
    cell, a bound 0 in every cell and a bound 1 in the last cell; the edge
    vectors it returns then have one entry more than there are cells, and
    the centres are the ones it was given. *)
Theorem mk_outgrid_returns_only_with_bounds (ds : LatLonGrid.t) (g : OutGrid) :
  mk_outgrid ds = Ok g ->
  bnds_ok (LatLonGrid.lat_bnds ds) /\ bnds_ok (LatLonGrid.lon_bnds ds)
  /\ length (o_lat_b g) = S (length (LatLonGrid.lat_bnds ds))
  /\ length (o_lon_b g) = S (length (LatLonGrid.lon_bnds ds))
  /\ o_lat g = LatLonGrid.lat ds /\ o_lon g = LatLonGrid.lon ds.
Proof.
  unfold mk_outgrid. cbv zeta.
  destruct (concat_bnds (LatLonGrid.lat_bnds ds)) as [lat_b |] eqn:E1;
    [cbn [bind] | discriminate].
  destruct (concat_bnds (LatLonGrid.lon_bnds ds)) as [lon_b |] eqn:E2;
    [cbn [bind] | discriminate].
  intros [= <-]. cbn [o_lat o_lon o_lat_b o_lon_b].
  split; [apply concat_bnds_succeeds_iff; now exists lat_b |].
  split; [apply concat_bnds_succeeds_iff; now exists lon_b |].
  rewrite (concat_bnds_value _ E1), (concat_bnds_value _ E2).
  rewrite !length_app, !length_map. cbn [length].
  repeat split; lia.
Qed.

Lemma mk_outgrid_returns_only_with_bounds_witness :
  bnds_ok (LatLonGrid.lat_bnds target_3x2)
  /\ forall g, mk_outgrid (LatLonGrid.mk [] [0]%float [] [[-1; 1]]%float) <> Ok g.
Proof.
  split.
  - apply (@mk_outgrid_returns_only_with_bounds target_3x2
             (mkOutGrid [90; 270] [-60; 0; 60] [0; 180; 360] [-90; -30; 30; 90])%float).
    reflexivity.
  - intros g H. destruct (mk_outgrid_returns_only_with_bounds _ H) as [[Hne _] _].
    now apply Hne.
Defined.

Lemma pair_of_two (pair : list float) :
  length pair = 2%nat -> pair = [vertex 0 pair; vertex 1 pair].
Proof.
  destruct pair as [| a [| b [| c t]]]; try discriminate. reflexivity.
Qed.

Lemma edges_give_bounds (b : array2) (N : nat) :
  shape2 b N 2 -> (1 <= N)%nat ->
  (contiguous b <->
   forall k, (k < N)%nat ->
     nth k b [] = cell_bounds (map (vertex 0) b ++ [vertex 1 (last b [])]) k).
Proof.
  intros Hb HN. destruct (edges_entries Hb HN) as [_ [Hlow Hup]].
  destruct Hb as [Hlen Hrows]. rewrite Forall_forall in Hrows.
  assert (Hpair : forall k, (k < N)%nat -> length (nth k b []) = 2%nat).
  { intros k Hk. apply Hrows, nth_In. lia. }
  assert (Hnext : forall k, (k < N)%nat ->
            nth (S k) (map (vertex 0) b ++ [vertex 1 (last b [])]) 0%float =
            if (S k <? N)%nat then vertex 0 (nth (S k) b []) else vertex 1 (nth k b [])).
  { intros k Hk. destruct (Nat.ltb_spec (S k) N) as [Hlt | Hge].
    - now apply Hlow.
    - replace (S k) with N by lia. rewrite Hup. repeat f_equal. lia. }
  unfold contiguous, cell_bounds. rewrite Hlen. split.
  - intros Hc k Hk. rewrite (Hlow k Hk), (Hnext k Hk).
    rewrite (pair_of_two _ (Hpair k Hk)) at 1. f_equal. f_equal.
    destruct (Nat.ltb_spec (S k) N) as [Hlt | Hge]; [now apply Hc | reflexivity].
  - intros Hrec k Hk.
    assert (Hk' : (k < N)%nat) by lia.
    pose proof (Hrec k Hk') as E. rewrite (Hnext k Hk') in E.
    destruct (Nat.ltb_spec (S k) N) as [_ | Hge]; [| lia].
    rewrite E. reflexivity.
Qed.

(** X6: the cell bounds can be read back from the edge vectors of mk_outgrid,
    cell k from the edges k and k + 1, exactly when neighbouring cells share
    their bound, on both axes. *)
Theorem mk_outgrid_bounds_recovered (ds : LatLonGrid.t) (N M : nat) :
  shape2 (LatLonGrid.lat_bnds ds) N 2 -> (1 <= N)%nat ->
  shape2 (LatLonGrid.lon_bnds ds) M 2 -> (1 <= M)%nat ->
  exists g,
    mk_outgrid ds = Ok g
    /\ (contiguous (LatLonGrid.lat_bnds ds) <->
        forall k, (k < N)%nat ->
          nth k (LatLonGrid.lat_bnds ds) [] = cell_bounds (o_lat_b g) k)
    /\ (contiguous (LatLonGrid.lon_bnds ds) <->
        forall k, (k < M)%nat ->
          nth k (LatLonGrid.lon_bnds ds) [] = cell_bounds (o_lon_b g) k).
Proof.
  intros Hlat HN Hlon HM. unfold mk_outgrid. cbv zeta.
  rewrite (concat_bnds_ok Hlat HN). cbn [bind].
  rewrite (concat_bnds_ok Hlon HM). cbn [bind].
  eexists. split; [reflexivity |]. cbn [o_lat_b o_lon_b].
  split; now apply edges_give_bounds.
Qed.

Lemma mk_outgrid_bounds_recovered_witness :
  exists g,
    mk_outgrid target_3x2 = Ok g
    /\ (contiguous (LatLonGrid.lat_bnds target_3x2) <->
        forall k, (k < 3)%nat ->
          nth k (LatLonGrid.lat_bnds target_3x2) [] = cell_bounds (o_lat_b g) k)
    /\ (contiguous (LatLonGrid.lon_bnds target_3x2) <->
        forall k, (k < 2)%nat ->
          nth k (LatLonGrid.lon_bnds target_3x2) [] = cell_bounds (o_lon_b g) k).
Proof.
  apply (@mk_outgrid_bounds_recovered target_3x2 3 2).
  - exact (proj1 target_3x2_shapes).
  - lia.
  - exact (proj2 target_3x2_shapes).
  - lia.
Defined.

(** ** make_regridder *)

(** X7: in a module where [modelname] is bound to the string [m],
    make_regridder builds the geometry with the sea-ice flag off, so that all
    R rows are kept whatever the model, constructs one regridder from it,
    with the weight file named after the path and the mode only, and adds
    that call to the list; when make_bounds raises, it raises the same and
    the list is left as it was. *)
Theorem make_regridder_with_modelname (Regridder : Type)
    (xe_Regridder : RegridderCall -> result Regridder) (builtins : namespace)
    (m : string) (ds : ModelGrid.t) (outgrid : OutGrid)
    (grid_weight_path regrid_mode : string) (reuse_weights : bool) (w : world) :
  (forall R C,
      vertices_ok ds R C -> centres_ok ds R C ->
      exists ds_in,
        make_bounds m ds false = Ok ds_in
        /\ shape2 (values (g_lat ds_in)) R C
        /\ shape2 (values (g_lat_b ds_in)) (R + 1) (C + 1)
        /\ make_regridder xe_Regridder (("modelname", PyStr m) :: module_globals) builtins
             ds outgrid grid_weight_path regrid_mode reuse_weights w
           = (xe_Regridder
                (mkCall ds_in outgrid regrid_mode
                   (grid_weight_path ++ "model_to_grid_" ++ regrid_mode ++ ".nc")%string
                   reuse_weights),
              w ++ [mkCall ds_in outgrid regrid_mode
                      (grid_weight_path ++ "model_to_grid_" ++ regrid_mode ++ ".nc")%string
                      reuse_weights]))
  /\ (forall e,
        make_bounds m ds false = Raise e ->
        make_regridder xe_Regridder (("modelname", PyStr m) :: module_globals) builtins
          ds outgrid grid_weight_path regrid_mode reuse_weights w
        = (Raise e, w)).
Proof.
  assert (Hrun : make_regridder xe_Regridder (("modelname", PyStr m) :: module_globals)
                   builtins ds outgrid grid_weight_path regrid_mode reuse_weights w
                 = match make_bounds m ds false with
                   | Raise e => (Raise e, w)
                   | Ok ds_in =>
                       (xe_Regridder
                          (mkCall ds_in outgrid regrid_mode
                             (grid_weight_path ++ "model_to_grid_" ++ regrid_mode ++ ".nc")%string
                             reuse_weights),
                        w ++ [mkCall ds_in outgrid regrid_mode
                                (grid_weight_path ++ "model_to_grid_" ++ regrid_mode
                                 ++ ".nc")%string
                                reuse_weights])
                   end).
  { unfold make_regridder, load_global.
    change (lookup "make_bounds" (("modelname", PyStr m) :: module_globals))
      with (Some (PyObj "make_bounds")).
    change (lookup "modelname" (("modelname", PyStr m) :: module_globals))
      with (Some (PyStr m)).
    change (lookup "xe" (("modelname", PyStr m) :: module_globals))
      with (Some (PyObj "xesmf")).
    cbn [bind as_modelname]. destruct (make_bounds m ds false); reflexivity. }
  split.
  - intros R C Hv Hc.
    assert (Hny : effective_ny m false (Z.of_nat R) = Z.of_nat R)
      by (unfold effective_ny; now rewrite andb_false_r).
    destruct (@make_bounds_rows m ds false R C _ Hv Hc Hny) as [g [E [S1 [_ [S2 _]]]]];
      [lia |].
    exists g. rewrite Nat2Z.id in S1, S2.
    split; [exact E |]. split; [exact S1 |]. split; [exact S2 |].
    rewrite Hrun, E. reflexivity.
  - intros e He. rewrite Hrun, He. reflexivity.
Qed.

Lemma make_regridder_with_modelname_witness :
  exists ds_in,
    make_bounds "NorESM2-LM" grid_2x2 false = Ok ds_in
    /\ shape2 (values (g_lat ds_in)) 2 2
    /\ shape2 (values (g_lat_b ds_in)) 3 3
    /\ make_regridder file_regridder patched_globals some_builtins
         grid_2x2 (mkOutGrid [] [] [] []) "/tmp/" "bilinear" true []
       = (file_regridder
            (mkCall ds_in (mkOutGrid [] [] [] []) "bilinear"
               "/tmp/model_to_grid_bilinear.nc" true),
          [mkCall ds_in (mkOutGrid [] [] [] []) "bilinear"
             "/tmp/model_to_grid_bilinear.nc" true]).
Proof.
  exact (proj1 (make_regridder_with_modelname file_regridder some_builtins
                  "NorESM2-LM" grid_2x2 (mkOutGrid [] [] [] []) "/tmp/" "bilinear" true [])
           2%nat 2%nat grid_2x2_vertices_ok grid_2x2_centres_ok).
Defined.

(** ** consistent_naming *)

Lemma coord_is_var (n : string) (ds : X.t) :
  mem n (coord_names ds) = true -> mem n (var_names ds) = true.
Proof.
  unfold coord_names, var_names. rewrite !mem_In, !in_map_iff.
  intros [v [Hn Hv]]. apply filter_In in Hv. exists v. tauto.
Qed.

Lemma rename_structure (old new : string) (ds ds' : X.t) :
  rename old new ds = Ok ds' ->
  var_names ds' = map (renamed old new) (var_names ds)
  /\ X.attrs ds' = X.attrs ds
  /\ skeleton ds' = skeleton ds.
Proof.
  unfold rename.
  destruct (negb _); [discriminate |].
  destruct (_ && _); [discriminate |].
  intros [= <-]. unfold var_names, skeleton. cbn [X.variables X.attrs].
  rewrite !map_map. split; [| split]; try reflexivity.
  apply map_ext. intros v. cbn [rename_var X.is_coord X.dims]. now rewrite length_map.
Qed.

Lemma rename_raises (old new : string) (ds : X.t) (e : exception) :
  mem old (var_names ds) || mem old (dim_names ds) = true ->
  rename old new ds = Raise e -> e = conflict.
Proof.
  intros Hold. unfold rename. rewrite Hold. cbn [negb].
  destruct (_ && _); [now intros [= <-] | discriminate].
Qed.

Lemma rename_succeeds (old new : string) (ds : X.t) :
  mem old (var_names ds) || mem old (dim_names ds) = true ->
  mem new (var_names ds) = false -> mem new (dim_names ds) = false ->
  succeeds (rename old new ds).
Proof.
  intros Hold Hv Hd. unfold rename. rewrite Hold, Hv, !andb_false_r.
  cbn [negb]. eexists. reflexivity.
Qed.

Lemma guarded_coord (old new : string) (ds : X.t) :
  guarded (mem old (coord_names ds) && negb (mem new (coord_names ds))) old ds.
Proof.
  intros H. apply andb_prop in H. destruct H as [H _].
  now rewrite (coord_is_var _ _ H).
Qed.

Lemma guarded_dim (old : string) (ds : X.t) : guarded (mem old (dim_names ds)) old ds.
Proof. intros H. rewrite H. apply orb_true_r. Qed.

Lemma step_raises (test : bool) (old new : string) (ds : X.t) (e : exception) :
  guarded test old ds ->
  (if test then rename old new ds else Ok ds) = Raise e -> e = conflict.
Proof.
  intros G. destruct test; [| discriminate]. apply rename_raises. now apply G.
Qed.

Lemma step_structure (test : bool) (old new : string) (ds ds' : X.t) :
  (if test then rename old new ds else Ok ds) = Ok ds' ->
  X.attrs ds' = X.attrs ds /\ skeleton ds' = skeleton ds.
Proof.
  destruct test.
  - intros H. now destruct (rename_structure _ _ _ H) as [_ ?].
  - now intros [= <-].
Qed.

Lemma step_fresh (test : bool) (old new : string) (ds : X.t) :
  guarded test old ds ->
  mem new (var_names ds) = false -> mem new (dim_names ds) = false ->
  exists ds',
    (if test then rename old new ds else Ok ds) = Ok ds'
    /\ forall t, t <> old -> t <> new ->
         mem t (var_names ds') = mem t (var_names ds)
         /\ mem t (dim_names ds') = mem t (dim_names ds).
Proof.
  intros G Hv Hd. destruct test.
  - destruct (rename_succeeds _ _ _ (G eq_refl) Hv Hd) as [ds' E].
    exists ds'. split; [exact E |]. intros t Ho Hn.
    destruct (rename_structure _ _ _ E) as [-> _].
    destruct (rename_names _ _ _ E) as [_ ->].
    now rewrite !mem_map_renamed_other.
  - exists ds. auto.
Qed.

(** X8: after a successful consistent_naming no dimension is called region,
    x, y, depth or bounds, and latitude (longitude) is a coordinate only
    beside lat (lon). *)
Theorem consistent_naming_removes_raw_names (ds ds' : X.t) :
  consistent_naming ds = Ok ds' ->
  (forall n, In n ["region"; "x"; "y"; "depth"; "bounds"] -> ~ In n (dim_names ds'))
  /\ (In "latitude" (coord_names ds') -> In "lat" (coord_names ds'))
  /\ (In "longitude" (coord_names ds') -> In "lon" (coord_names ds')).
Proof.
  intros H. pose proof (consistent_naming_settles _ H) as S. unfold settled in S.
  repeat (apply andb_prop in S; destruct S as [S ?]).
  repeat match goal with
         | H : negb _ = true |- _ => apply negb_true_iff in H
         end.
  split; [| split].
  - intros n Hn Hin. apply mem_In in Hin.
    repeat (destruct Hn as [<- | Hn]; [congruence |]). destruct Hn.
  - intros Hin. apply mem_In in Hin. apply mem_In.
    destruct (mem "lat" (coord_names ds')); [reflexivity |].
    rewrite Hin in S. discriminate.
  - intros Hin. apply mem_In in Hin. apply mem_In.
    destruct (mem "lon" (coord_names ds')); [reflexivity |].
    match goal with
    | H : mem "longitude" _ && _ = false |- _ => rewrite Hin in H; discriminate
    end.
Qed.

Lemma consistent_naming_removes_raw_names_witness :
  exists ds',
    consistent_naming raw_ocean = Ok ds'
    /\ ~ In "x" (dim_names ds') /\ ~ In "depth" (dim_names ds').
Proof.
  eexists. split; [reflexivity |].
  destruct (@consistent_naming_removes_raw_names raw_ocean _ eq_refl) as [H _].
  split; apply H; simpl; auto.
Defined.

(** X9: the only exception consistent_naming raises is the ValueError of a
    name conflict: a name is renamed only where it is in use, so that rename
    never fails for a missing name. *)
Theorem consistent_naming_raises_only_conflict (ds : X.t) (e : exception) :
  consistent_naming ds = Raise e -> e = conflict.
Proof.
  unfold consistent_naming.
  repeat match goal with
         | |- bind (if ?t then rename ?o ?n ?d else Ok ?d) _ = Raise _ -> _ =>
             let E := fresh "E" in
             destruct (if t then rename o n d else Ok d) eqn:E; cbn [bind];
             [ | intros [= <-];
                 first [ exact (@step_raises _ _ _ _ _ (@guarded_coord o n d) E)
                       | exact (@step_raises _ _ _ _ _ (@guarded_dim o d) E) ] ]
         end.
  discriminate.
Qed.

Lemma consistent_naming_raises_only_conflict_witness :
  consistent_naming (X.mk [X.mkVar "x" ["x"] true; X.mkVar "i" ["x"] false] [])
  = Raise conflict.
Proof.
  destruct (consistent_naming (X.mk [X.mkVar "x" ["x"] true; X.mkVar "i" ["x"] false] []))
    as [d | e] eqn:E.
  - discriminate E.
  - f_equal. exact (consistent_naming_raises_only_conflict _ E).
Defined.

(** X10: consistent_naming keeps the attributes, the number of variables,
    which of them are coordinates and how many dimensions each has: only
    names change. *)
Theorem consistent_naming_keeps_structure (ds ds' : X.t) :
  consistent_naming ds = Ok ds' ->
  X.attrs ds' = X.attrs ds
  /\ skeleton ds' = skeleton ds
  /\ length (X.variables ds') = length (X.variables ds).
Proof.
  unfold consistent_naming. intros H.
  assert (K : X.attrs ds' = X.attrs ds /\ skeleton ds' = skeleton ds).
  { revert H.
    repeat match goal with
           | |- bind (if ?t then rename ?o ?n ?d else Ok ?d) _ = Ok _ -> _ =>
               let E := fresh "E" in
               destruct (if t then rename o n d else Ok d) eqn:E; cbn [bind];
               [apply step_structure in E; destruct E as [? ?] | discriminate]
           end.
    intros [= <-]. split; congruence. }
  destruct K as [Ka Ks]. split; [exact Ka |]. split; [exact Ks |].
  unfold skeleton in Ks. apply (f_equal (@length _)) in Ks.
  now rewrite !length_map in Ks.
Qed.

Lemma consistent_naming_keeps_structure_witness :
  exists ds',
    consistent_naming raw_ocean = Ok ds'
    /\ X.attrs ds' = [("long_name", "temperature")]
    /\ length (X.variables ds') = 4%nat.
Proof.
  eexists. split; [reflexivity |].
  destruct (@consistent_naming_keeps_structure raw_ocean _ eq_refl) as [H1 [_ H2]].
  split; [exact H1 | exact H2].
Defined.

Lemma step_fresh_list (test : bool) (old new : string) (rest : list string) (ds : X.t) :
  guarded test old ds ->
  uses_none (new :: rest) ds = true ->
  mem old rest = false -> mem new rest = false ->
  exists ds',
    (if test then rename old new ds else Ok ds) = Ok ds'
    /\ uses_none rest ds' = true.
Proof.
  intros G Hfresh Ho Hn. unfold uses_none in *. cbn [forallb] in Hfresh.
  apply andb_prop in Hfresh. destruct Hfresh as [Hnew Hrest].
  apply andb_prop in Hnew. destruct Hnew as [Hv Hd].
  apply negb_true_iff in Hv. apply negb_true_iff in Hd.
  destruct (step_fresh new G Hv Hd) as [ds' [E K]].
  exists ds'. split; [exact E |].
  apply forallb_forall. intros t Ht.
  assert (t <> old) by (intros ->; apply mem_In in Ht; congruence).
  assert (t <> new) by (intros ->; apply mem_In in Ht; congruence).
  destruct (K t) as [-> ->]; try assumption.
  exact (proj1 (forallb_forall _ _) Hrest t Ht).
Qed.

(** X11: consistent_naming never fails on a dataset in which none of lat,
    lon, basin, i, j, lev and bnds names a variable or a dimension. *)
Theorem consistent_naming_succeeds_without_canonical_names (ds : X.t) :
  uses_none canonical_names ds = true -> succeeds (consistent_naming ds).
Proof.
  intros H0. unfold consistent_naming, canonical_names in *.
  destruct (@step_fresh_list _ _ _ _ _ (@guarded_coord "latitude" "lat" ds) H0 eq_refl eq_refl)
    as [d1 [E1 H1]].
  rewrite E1. cbn [bind].
  destruct (@step_fresh_list _ _ _ _ _ (@guarded_coord "longitude" "lon" d1) H1 eq_refl eq_refl)
    as [d2 [E2 H2]].
  rewrite E2. cbn [bind].
  destruct (@step_fresh_list _ _ _ _ _ (@guarded_dim "region" d2) H2 eq_refl eq_refl)
    as [d3 [E3 H3]].
  rewrite E3. cbn [bind].
  destruct (@step_fresh_list _ _ _ _ _ (@guarded_dim "x" d3) H3 eq_refl eq_refl) as [d4 [E4 H4]].
  rewrite E4. cbn [bind].
  destruct (@step_fresh_list _ _ _ _ _ (@guarded_dim "y" d4) H4 eq_refl eq_refl) as [d5 [E5 H5]].
  rewrite E5. cbn [bind].
  destruct (@step_fresh_list _ _ _ _ _ (@guarded_dim "depth" d5) H5 eq_refl eq_refl) as [d6 [E6 H6]].
  rewrite E6. cbn [bind].
  destruct (@step_fresh_list _ _ _ _ _ (@guarded_dim "bounds" d6) H6 eq_refl eq_refl) as [d7 [E7 _]].
  rewrite E7. cbn [bind]. now exists d7.
Qed.

Lemma consistent_naming_succeeds_without_canonical_names_witness :
  succeeds (consistent_naming raw_ocean).
Proof.
  apply consistent_naming_succeeds_without_canonical_names. reflexivity.
Defined.

(** ** Attributes of the averages *)

Lemma get_attr_filter_other (k key : string) (a : list (string * string)) :
  k <> key ->
  get_attr k (filter (fun kv => negb (String.eqb key (fst kv))) a) = get_attr k a.
Proof.
  intros Hne. induction a as [| [k' v] t IH]; [reflexivity |].
  cbn [filter fst get_attr].
  destruct (String.eqb_spec key k') as [<- | Hk]; cbn [negb get_attr].
  - rewrite IH. destruct (String.eqb_spec k key); [contradiction | reflexivity].
  - now rewrite IH.
Qed.

Lemma get_attr_with_attr_same (key : string) (value : string -> string) (ds out : X.t) :
  get_attr key (X.attrs (with_attr key value ds out)) = copied_attr key value ds out.
Proof.
  unfold with_attr, copied_attr. destruct (get_attr key (X.attrs ds)); [| reflexivity].
  cbn [set_attr X.attrs get_attr]. now rewrite String.eqb_refl.
Qed.

Lemma get_attr_with_attr_other (k key : string) (value : string -> string) (ds out : X.t) :
  k <> key ->
  get_attr k (X.attrs (with_attr key value ds out)) = get_attr k (X.attrs out).
Proof.
  intros Hne. unfold with_attr. destruct (get_attr key (X.attrs ds)); [| reflexivity].
  cbn [set_attr X.attrs get_attr].
  destruct (String.eqb_spec k key); [contradiction |]. now apply get_attr_filter_other.
Qed.

Lemma variables_with_attr (key : string) (value : string -> string) (ds out : X.t) :
  X.variables (with_attr key value ds out) = X.variables out.
Proof. unfold with_attr. now destruct (get_attr key (X.attrs ds)). Qed.

Lemma copy_attr_bound (key : string) (value : string -> string) (ds out : X.t) :
  copy_attr key value ds (Some out) = Ok (Some (with_attr key value ds out)).
Proof. unfold copy_attr, with_attr. now destruct (get_attr key (X.attrs ds)). Qed.

(** The three closing statements on a bound [ds_out]. *)
Lemma copy_three_attrs (prefix : string -> string) (ds out : X.t) :
  (o1 <- copy_attr "long_name" prefix ds (Some out) ;;
   o2 <- copy_attr "units" (fun v => v) ds o1 ;;
   o3 <- copy_attr "standard_name" (fun v => v) ds o2 ;;
   load_fast "ds_out" o3)
  = Ok (with_attr "standard_name" (fun v => v) ds
          (with_attr "units" (fun v => v) ds (with_attr "long_name" prefix ds out))).
Proof.
  rewrite copy_attr_bound. cbn [bind]. rewrite copy_attr_bound. cbn [bind].
  rewrite copy_attr_bound. reflexivity.
Qed.

Lemma three_attrs_spec (prefix : string -> string) (ds out : X.t) :
  let res := with_attr "standard_name" (fun v => v) ds
               (with_attr "units" (fun v => v) ds (with_attr "long_name" prefix ds out)) in
  X.variables res = X.variables out
  /\ get_attr "long_name" (X.attrs res) = copied_attr "long_name" prefix ds out
  /\ get_attr "units" (X.attrs res) = copied_attr "units" (fun v => v) ds out
  /\ get_attr "standard_name" (X.attrs res) = copied_attr "standard_name" (fun v => v) ds out
  /\ forall k, ~ In k ["long_name"; "units"; "standard_name"] ->
               get_attr k (X.attrs res) = get_attr k (X.attrs out).
Proof.
  cbv zeta. split; [now rewrite !variables_with_attr |].
  split; [| split; [| split]].
  - rewrite !get_attr_with_attr_other by discriminate. apply get_attr_with_attr_same.
  - rewrite get_attr_with_attr_other by discriminate.
    rewrite get_attr_with_attr_same. unfold copied_attr.
    destruct (get_attr "units" (X.attrs ds)); [reflexivity |].
    now rewrite get_attr_with_attr_other by discriminate.
  - rewrite get_attr_with_attr_same. unfold copied_attr.
    destruct (get_attr "standard_name" (X.attrs ds)); [reflexivity |].
    now rewrite !get_attr_with_attr_other by discriminate.
  - intros k Hk. rewrite !get_attr_with_attr_other; [reflexivity | | |];
      intros ->; apply Hk; simpl; auto.
Qed.

Section Averages.
Context {xr : Xarray}.
Variable sum_all : X.t -> X.t.

(** X12: the weights that get_areacello returns are consistently named: a
    further consistent_naming returns them as they are, and none of their
    dimensions is called region, x, y, depth or bounds.  When the first file
    of the chosen branch cannot be opened, its exception is the one raised. *)
Theorem get_areacello_consistently_named (cmor : bool) :
  (forall w, get_areacello cmor = Ok w ->
     consistent_naming w = Ok w
     /\ forall n, In n ["region"; "x"; "y"; "depth"; "bounds"] -> ~ In n (dim_names w))
  /\ (forall e, open_dataset (if cmor then areacello_path else grid_path) = Raise e ->
        get_areacello cmor = Raise e).
Proof.
  split.
  - intros w. unfold get_areacello.
    match goal with
    | |- bind ?r _ = _ -> _ => destruct r as [p1 |]; cbn [bind]; [| discriminate]
    end.
    match goal with
    | |- bind ?r _ = _ -> _ => destruct r as [p2 |]; cbn [bind]; [| discriminate]
    end.
    destruct (load_fast "pweight" p2) as [p |]; cbn [bind]; [| discriminate].
    intros H. pose proof (consistent_naming_settles _ H) as S. split.
    + now apply settled_fixed.
    + intros n Hn Hin. apply mem_In in Hin. unfold settled in S.
      repeat (apply andb_prop in S; destruct S as [S ?]).
      repeat match goal with
             | H : negb _ = true |- _ => apply negb_true_iff in H
             end.
      repeat (destruct Hn as [<- | Hn]; [congruence |]). destruct Hn.
  - intros e He. unfold get_areacello. destruct cmor; cbn [negb bind]; now rewrite He.
Qed.

(** X13: areaavg_ocn returns as soon as the area weights are there and the
    sum over j and i is defined, with or without a sigma coordinate.  Its
    result has the variables of the quotient and, for each of long_name,
    units and standard_name that [ds] has, the value of [ds] (long_name after
    "Globally averaged "); any other attribute is the one of the quotient. *)
Theorem areaavg_ocn_returns (ds : X.t) (pweight : option X.t) (cmor : bool)
    (w num : X.t) :
  area_weights pweight cmor = Ok w ->
  sum_over ["j"; "i"] (times ds w) = Ok num ->
  exists out,
    areaavg_ocn sum_all ds pweight cmor = Ok out
    /\ X.variables out = X.variables (divide num (sum_all w))
    /\ get_attr "long_name" (X.attrs out) =
       copied_attr "long_name" (fun v => "Globally averaged " ++ v)%string ds
         (divide num (sum_all w))
    /\ get_attr "units" (X.attrs out) =
       copied_attr "units" (fun v => v) ds (divide num (sum_all w))
    /\ get_attr "standard_name" (X.attrs out) =
       copied_attr "standard_name" (fun v => v) ds (divide num (sum_all w))
    /\ forall k, ~ In k ["long_name"; "units"; "standard_name"] ->
                 get_attr k (X.attrs out) = get_attr k (X.attrs (divide num (sum_all w))).
Proof.
  intros Hw Hnum. unfold areaavg_ocn. rewrite Hw. cbn [bind]. rewrite Hnum. cbn [bind].
  cbv zeta. rewrite copy_three_attrs. eexists. split; [reflexivity |].
  apply three_attrs_spec.
Qed.

(** X14: with a sigma coordinate, volumeavg_ocn takes the attributes of its
    result from the field summed over sigma (line 452 rebinds [ds]), not from
    the field it was given; when that sum carries no attribute, the result is
    the bare quotient, whatever attributes the input has. *)
Theorem volumeavg_ocn_with_sigma (ds dp : X.t) (pweight : option X.t) (cmor : bool)
    (w s dpweight num den : X.t) :
  mem "sigma" (coord_names ds) = true ->
  area_weights pweight cmor = Ok w ->
  sum_over ["sigma"] (times ds dp) = Ok s ->
  sum_over ["sigma"] dp = Ok dpweight ->
  sum_over ["j"; "i"] (times w s) = Ok num ->
  sum_over ["i"; "j"] (times w dpweight) = Ok den ->
  exists out,
    volumeavg_ocn ds dp pweight cmor = Ok out
    /\ X.variables out = X.variables (divide num den)
    /\ get_attr "long_name" (X.attrs out) =
       copied_attr "long_name" (fun v => "Volume averaged " ++ v)%string s (divide num den)
    /\ get_attr "units" (X.attrs out) =
       copied_attr "units" (fun v => v) s (divide num den)
    /\ get_attr "standard_name" (X.attrs out) =
       copied_attr "standard_name" (fun v => v) s (divide num den)
    /\ (X.attrs s = [] -> out = divide num den).
Proof.
  intros Hs Hw Es Edp Enum Eden. unfold volumeavg_ocn.
  rewrite Hw. cbn [bind]. rewrite Hs, Es. cbn [bind].
  rewrite Edp. cbn [bind]. rewrite Enum. cbn [bind]. rewrite Eden. cbn [bind fst snd].
  rewrite copy_three_attrs. eexists. split; [reflexivity |].
  destruct (three_attrs_spec (fun v => "Volume averaged " ++ v)%string s (divide num den))
    as [Hv [Hl [Hu [Hn _]]]].
  split; [exact Hv |]. split; [exact Hl |]. split; [exact Hu |]. split; [exact Hn |].
  intros Hno. unfold with_attr. rewrite Hno. reflexivity.
Qed.

End Averages.

Lemma get_areacello_consistently_named_witness :
  @get_areacello on_nird true
  = Ok (X.mk [ X.mkVar "lat" ["j"; "i"] true; X.mkVar "lon" ["j"; "i"] true;
               X.mkVar this_array ["j"; "i"] false ] [])
  /\ consistent_naming
       (X.mk [ X.mkVar "lat" ["j"; "i"] true; X.mkVar "lon" ["j"; "i"] true;
               X.mkVar this_array ["j"; "i"] false ] [])
     = Ok (X.mk [ X.mkVar "lat" ["j"; "i"] true; X.mkVar "lon" ["j"; "i"] true;
                  X.mkVar this_array ["j"; "i"] false ] [])
  /\ @get_areacello no_files true = Raise (FileNotFoundError areacello_path).
Proof.
  split; [reflexivity |]. split.
  - apply (proj1 (@get_areacello_consistently_named on_nird true) _). reflexivity.
  - apply (proj2 (@get_areacello_consistently_named no_files true)). reflexivity.
Defined.

Lemma areaavg_ocn_returns_witness :
  exists out,
    @areaavg_ocn keeps_attrs (fun a => a) cmor_ocean (Some areacello) true = Ok out
    /\ get_attr "long_name" (X.attrs out) = Some "Globally averaged temperature"
    /\ get_attr "units" (X.attrs out) = Some "degC".
Proof.
  destruct (@areaavg_ocn_returns keeps_attrs (fun a => a) cmor_ocean (Some areacello) true
              areacello (X.mk (X.variables cmor_ocean) []) eq_refl eq_refl)
    as [out [E [_ [Hl [Hu _]]]]].
  exists out. split; [exact E |]. split; [exact Hl | exact Hu].
Defined.

Lemma volumeavg_ocn_with_sigma_witness :
  @volumeavg_ocn keeps_attrs sigma_ocean sigma_ocean (Some areacello) true
  = Ok (X.mk (X.variables areacello) []).
Proof.
  destruct (@volumeavg_ocn_with_sigma keeps_attrs sigma_ocean sigma_ocean (Some areacello)
              true areacello (X.mk (X.variables sigma_ocean) [])
              (X.mk (X.variables sigma_ocean) []) (X.mk (X.variables areacello) [])
              (X.mk (X.variables areacello) []) eq_refl eq_refl eq_refl eq_refl eq_refl
              eq_refl)
    as [out [E [_ [_ [_ [_ Hbare]]]]]].
  rewrite E. f_equal. exact (Hbare eq_refl).
Defined.

(** ** The corner mesh and the vertices it comes from *)

Lemma quad_of_four (quad0 : list float) :
  length quad0 = 4%nat ->
  quad0 = [vertex 0 quad0; vertex 1 quad0; vertex 2 quad0; vertex 3 quad0].
Proof.
  destruct quad0 as [| a [| b [| c [| d [| e t]]]]]; try discriminate. reflexivity.
Qed.

Lemma cell_length (v : array3) (R C r c : nat) :
  shape3 v R C 4 -> (r < R)%nat -> (c < C)%nat -> length (cell v r c) = 4%nat.
Proof.
  intros [Hlen Hrows] Hr Hc. rewrite Forall_forall in Hrows.
  destruct (Hrows (nth r v [])) as [Hl Hq]; [apply nth_In; lia |].
  rewrite Forall_forall in Hq. apply Hq. unfold cell. apply nth_In. lia.
Qed.

(** Every entry of the mesh, by the position of its row and column. *)
Lemma corner_mesh_spec_entry (v : array3) (R C r c : nat) :
  shape3 v R C 4 -> (1 <= R)%nat -> (1 <= C)%nat -> (r <= R)%nat -> (c <= C)%nat ->
  entry (corner_mesh_spec v) r c =
  if (r <? R)%nat
  then if (c <? C)%nat then vertex 0 (cell v r c) else vertex 1 (cell v r (C - 1))
  else if (c <? C)%nat then vertex 3 (cell v (R - 1) c)
       else vertex 2 (cell v (R - 1) (C - 1)).
Proof.
  intros Hv HR HC Hr Hc.
  destruct (corner_mesh_spec_entries Hv HR HC) as [H0 [H1 [H3 H2]]].
  destruct (Nat.ltb_spec r R) as [Hr' | Hr']; destruct (Nat.ltb_spec c C) as [Hc' | Hc'].
  - now apply H0.
  - replace c with C by lia. now apply H1.
  - replace r with R by lia. now apply H3.
  - replace r with R by lia. replace c with C by lia. exact H2.
Qed.

(** X15: the corner mesh holds the four vertices of every cell, cell (r, c)
    at the mesh entries (r, c), (r, c+1), (r+1, c+1) and (r+1, c), exactly
    when neighbouring cells agree on the corners they share. *)
Theorem corner_mesh_recovers_cells (v : array3) (R C : nat) :
  shape3 v R C 4 -> (1 <= R)%nat -> (1 <= C)%nat ->
  exists m,
    corner_mesh v = Ok m
    /\ (shared_corners v R C <->
        forall r c, (r < R)%nat -> (c < C)%nat -> cell v r c = mesh_cell m r c).
Proof.
  intros Hv HR HC. exists (corner_mesh_spec v).
  split; [now apply (corner_mesh_ok Hv) |].
  assert (He : forall r c, (r <= R)%nat -> (c <= C)%nat ->
            entry (corner_mesh_spec v) r c =
            if (r <? R)%nat
            then if (c <? C)%nat then vertex 0 (cell v r c)
                 else vertex 1 (cell v r (C - 1))
            else if (c <? C)%nat then vertex 3 (cell v (R - 1) c)
                 else vertex 2 (cell v (R - 1) (C - 1)))
    by (intros; now apply corner_mesh_spec_entry).
  unfold shared_corners, mesh_cell. split.
  - intros [S1 [S3 [S2 [S2c S2r]]]] r c Hr Hc.
    rewrite (quad_of_four _ (cell_length Hv Hr Hc)) at 1.
    rewrite !He by lia.
    destruct (Nat.ltb_spec r R) as [_ | ?]; [| lia].
    destruct (Nat.ltb_spec c C) as [_ | ?]; [| lia].
    destruct (Nat.ltb_spec (S r) R) as [Hr' | Hr'];
      destruct (Nat.ltb_spec (S c) C) as [Hc' | Hc'].
    + now rewrite S1, S2, S3.
    + rewrite <- S2c by lia. replace (C - 1)%nat with c by lia. now rewrite S3.
    + rewrite <- S2r by lia. replace (R - 1)%nat with r by lia. now rewrite S1.
    + replace (R - 1)%nat with r by lia. now replace (C - 1)%nat with c by lia.
  - intros Hrec.
    assert (Hq : forall r c, (r < R)%nat -> (c < C)%nat ->
              vertex 1 (cell v r c) = entry (corner_mesh_spec v) r (S c)
              /\ vertex 2 (cell v r c) = entry (corner_mesh_spec v) (S r) (S c)
              /\ vertex 3 (cell v r c) = entry (corner_mesh_spec v) (S r) c).
    { intros r c Hr Hc. rewrite (Hrec r c Hr Hc) at 1 2 3. repeat split. }
    split; [| split; [| split; [| split]]].
    + intros r c Hr Hc. rewrite (proj1 (Hq r c Hr ltac:(lia))), He by lia.
      destruct (Nat.ltb_spec r R); [| lia].
      destruct (Nat.ltb_spec (S c) C); [reflexivity | lia].
    + intros r c Hr Hc. rewrite (proj2 (proj2 (Hq r c ltac:(lia) Hc))), He by lia.
      destruct (Nat.ltb_spec (S r) R); [| lia].
      destruct (Nat.ltb_spec c C); [reflexivity | lia].
    + intros r c Hr Hc.
      rewrite (proj1 (proj2 (Hq r c ltac:(lia) ltac:(lia)))), He by lia.
      destruct (Nat.ltb_spec (S r) R); [| lia].
      destruct (Nat.ltb_spec (S c) C); [reflexivity | lia].
    + intros r Hr.
      rewrite (proj1 (proj2 (Hq r (C - 1)%nat ltac:(lia) ltac:(lia)))), He by lia.
      destruct (Nat.ltb_spec (S r) R); [| lia].
      destruct (Nat.ltb_spec (S (C - 1)) C); [lia | reflexivity].
    + intros c Hc.
      rewrite (proj1 (proj2 (Hq (R - 1)%nat c ltac:(lia) ltac:(lia)))), He by lia.
      destruct (Nat.ltb_spec (S (R - 1)) R); [lia |].
      destruct (Nat.ltb_spec (S c) C); [reflexivity | lia].
Qed.

Lemma corner_mesh_recovers_cells_witness :
  corner_mesh lattice_vertices = Ok [[0; 1; 2]; [10; 11; 12]; [20; 21; 22]]%float
  /\ exists m,
       corner_mesh lattice_vertices = Ok m
       /\ (shared_corners lattice_vertices 2 2 <->
           forall r c, (r < 2)%nat -> (c < 2)%nat ->
                       cell lattice_vertices r c = mesh_cell m r c).
Proof.
  split; [reflexivity |].
  apply (@corner_mesh_recovers_cells lattice_vertices 2 2); try lia.
  split; [reflexivity | repeat constructor].
Defined.
